(** * Publish orchestration of the changesets CLI: npm-utils.ts

    A shallow embedding of
    [packages/cli/src/commands/publish/npm-utils.ts] and the properties
    its specification states about it.

    - [JS]: the JavaScript values and built-ins the program uses
      (strings, parsed JSON, truthiness, property reads, [JSON.parse]);
    - [Run]: the effects of the program (spawned tools, operator input,
      log lines, the shared two-factor state, exceptions) as a state and
      error monad over a world that records what was done;
    - [NpmUtils]: the functions of npm-utils.ts, in source order;
    - [PLimit]: the concurrency gates ([p-limit]) as a transition system
      over the units of work that pass through them;
    - the vocabulary in which the properties are stated, with sample
      surroundings to run the functions in;
    - the properties. *)

From Stdlib Require Import String Ascii List Bool Arith ZArith NArith Lia.
Import ListNotations.

Local Open Scope string_scope.

(* ===================================================================== *)
(** * JavaScript values *)
(* ===================================================================== *)

Module JS.

(** Strings are sequences of bytes: the program compares strings only
    with ASCII constants and searches them only for an ASCII needle, and
    both give the same answer on the UTF-8 bytes as on the UTF-16 units. *)

(** A number literal [m * 10^e]; the program never computes with numbers
    that come from JSON, it only tests them for truthiness. *)
Record number := Num { mantissa : Z; exponent10 : Z }.

Unset Elimination Schemes.
Inductive json :=
| JNull
| JBool (b : bool)
| JNum (n : number)
| JStr (s : string)
| JArr (xs : list json)
| JObj (fields : list (string * json)).
Set Elimination Schemes.

(** A value read from a property: [None] is [undefined]. *)
Definition value := option json.

(** ** Truthiness *)

(** A literal is the double [0] when its mantissa is zero, or when it is
    so small that the nearest double is zero: at most [2^-1075] in
    magnitude (half of the least subnormal, the tie going to the even
    mantissa [0]). *)
Definition number_is_zero (n : number) : bool :=
  (mantissa n =? 0)%Z
  || ((exponent10 n <? 0)%Z
      && (Z.abs (mantissa n) * 2 ^ 1075 <=? 10 ^ (- exponent10 n))%Z).

Definition truthy_json (j : json) : bool :=
  match j with
  | JNull => false
  | JBool b => b
  | JNum n => negb (number_is_zero n)
  | JStr s => negb (s =? "")
  | JArr _ => true
  | JObj _ => true
  end.

Definition truthy (v : value) : bool :=
  match v with
  | None => false
  | Some j => truthy_json j
  end.

(** Truthiness of an optional string ([string | undefined]). *)
Definition truthy_string (s : option string) : bool :=
  match s with
  | None => false
  | Some s => negb (s =? "")
  end.

(** [s === c] for an optional string [s] and a string [c]. *)
Definition same_string (s : option string) (c : string) : bool :=
  match s with
  | Some s' => s' =? c
  | None => false
  end.

(** [a ?? b] *)
Definition nullish {A} (a b : option A) : option A :=
  match a with
  | Some _ => a
  | None => b
  end.

(** ** Objects *)

Fixpoint lookup (k : string) (fields : list (string * json)) : value :=
  match fields with
  | [] => None
  | (k', v) :: rest => if k' =? k then Some v else lookup k rest
  end.

(** Defining a property: an existing key keeps its place and takes the
    new value (a repeated key in JSON text: the last one wins). *)
Fixpoint define (k : string) (v : json) (fields : list (string * json))
  : list (string * json) :=
  match fields with
  | [] => [(k, v)]
  | (k', v') :: rest =>
      if k' =? k then (k, v) :: rest else (k', v') :: define k v rest
  end.

(** ** Property reads

    [v.k] for the property names this program reads ([error], [code],
    [summary], [detail], [tfa], [mode]): none of them is a property of a
    string, a number, a boolean or an array, so only an object can hold
    one. Reading a property of [undefined] or [null] throws a
    [TypeError], which [get] reports as [None]; [field] is the read
    where it cannot throw, and [field_opt] is [v?.k]. *)
Definition field (v : value) (k : string) : value :=
  match v with
  | Some (JObj fields) => lookup k fields
  | _ => None
  end.

Definition is_nullish (v : value) : bool :=
  match v with
  | None | Some JNull => true
  | _ => false
  end.

Definition get (v : value) (k : string) : option value :=
  if is_nullish v then None else Some (field v k).

Definition field_opt (v : value) (k : string) : value :=
  if is_nullish v then None else field v k.

(** ** Strict equality with a string constant: [v === "..."] *)
Definition strict_eq_string (v : value) (s : string) : bool :=
  match v with
  | Some (JStr s') => s' =? s
  | _ => false
  end.

(** [v.includes(needle)] for a string [needle]: the method of a string
    or of an array (whose elements are compared with [needle] as by
    [===]). Any other value has no callable [includes] (a JSON object
    may hold the key, never a function), and the call throws a
    [TypeError]: [None]. *)
Definition is_string (needle : string) (j : json) : bool :=
  match j with
  | JStr s => s =? needle
  | _ => false
  end.

(** ** String built-ins *)

(** The double quote and the line feed. *)
Definition double_quote : string := String "034" "".
Definition line_feed : string := String "010" "".

(** [hay.includes(needle)] *)
Fixpoint includes (needle hay : string) : bool :=
  prefix needle hay
  || match hay with
     | EmptyString => false
     | String _ rest => includes needle rest
     end.

Definition call_includes (v : value) (needle : string) : option bool :=
  match v with
  | Some (JStr s) => Some (includes needle s)
  | Some (JArr xs) => Some (existsb (is_string needle) xs)
  | _ => None
  end.

(** The white space and the line terminators of ECMAScript, each as its
    UTF-8 bytes: TAB, LF, VT, FF, CR, SP, U+00A0, U+1680, U+2000 to
    U+200A, U+2028, U+2029, U+202F, U+205F, U+3000 and U+FEFF. *)
Definition white_space : list (list ascii) :=
  map (map ascii_of_nat)
    [[9]; [10]; [11]; [12]; [13]; [32]; [194; 160]; [225; 154; 128];
     [226; 128; 128]; [226; 128; 129]; [226; 128; 130]; [226; 128; 131];
     [226; 128; 132]; [226; 128; 133]; [226; 128; 134]; [226; 128; 135];
     [226; 128; 136]; [226; 128; 137]; [226; 128; 138];
     [226; 128; 168]; [226; 128; 169]; [226; 128; 175]; [226; 129; 159];
     [227; 128; 128]; [239; 187; 191]]%nat.

(** What follows [word] at the head of [s], if [s] starts with it. *)
Fixpoint behind (word s : list ascii) : option (list ascii) :=
  match word, s with
  | [], _ => Some s
  | c :: word', c' :: s' => if (c =? c')%char then behind word' s' else None
  | _ :: _, [] => None
  end.

(** What follows the first of [words] that [s] starts with. *)
Fixpoint behind_any (words : list (list ascii)) (s : list ascii)
  : option (list ascii) :=
  match words with
  | [] => None
  | word :: words' =>
      match behind word s with
      | Some rest => Some rest
      | None => behind_any words' s
      end
  end.

(** [s] without the [words] it starts with; [fuel] bounds their number. *)
Fixpoint strip (fuel : nat) (words : list (list ascii)) (s : list ascii)
  : list ascii :=
  match fuel with
  | O => s
  | S fuel' =>
      match behind_any words s with
      | Some rest => strip fuel' words rest
      | None => s
      end
  end.

Definition trim_start (s : string) : string :=
  let bytes := list_ascii_of_string s in
  string_of_list_ascii (strip (List.length bytes) white_space bytes).

(** The same from the end: a character of UTF-8 is recognised from its
    last byte backwards as well as from its first. *)
Definition trim_end (s : string) : string :=
  let bytes := rev (list_ascii_of_string s) in
  string_of_list_ascii
    (rev (strip (List.length bytes) (map (@rev ascii) white_space) bytes)).

(** [s.trim()] *)
Definition trim (s : string) : string := trim_end (trim_start s).

(** [s.replace(/[^{]*/, "")]: the expression is not global, so only its
    first match is replaced; that match starts at index 0 and is the
    longest run of characters other than an opening brace. *)
Fixpoint replace_non_brace_prefix (s : string) : string :=
  match s with
  | EmptyString => EmptyString
  | String c rest =>
      if (c =? "{")%char then s else replace_non_brace_prefix rest
  end.

(** ** [JSON.parse]

    The grammar of ECMA-404. [None] stands for the [SyntaxError] that
    [JSON.parse] throws. *)

Module Parse.

Local Open Scope char_scope.

Definition is_json_space (c : ascii) : bool :=
  (c =? " ") || (c =? "009") || (c =? "010") || (c =? "013").

Fixpoint skip_ws (s : list ascii) : list ascii :=
  match s with
  | c :: rest => if is_json_space c then skip_ws rest else s
  | [] => []
  end.

(** What follows [word] at the head of [s], if [s] starts with it. *)
Fixpoint after (word s : list ascii) : option (list ascii) :=
  match word, s with
  | [], _ => Some s
  | w :: word', c :: s' => if c =? w then after word' s' else None
  | _ :: _, [] => None
  end.

Definition digit (c : ascii) : option Z :=
  let n := Z.of_N (N_of_ascii c) in
  if ((48 <=? n) && (n <=? 57))%Z then Some (n - 48)%Z else None.

Definition hex_digit (c : ascii) : option N :=
  let n := N_of_ascii c in
  if ((48 <=? n) && (n <=? 57))%N then Some (n - 48)%N
  else if ((65 <=? n) && (n <=? 70))%N then Some (n - 55)%N
  else if ((97 <=? n) && (n <=? 102))%N then Some (n - 87)%N
  else None.

(** The longest run of decimal digits: its value after [acc], its
    length after [len], the rest. *)
Fixpoint digits (acc : Z) (len : Z) (s : list ascii) : Z * Z * list ascii :=
  match s with
  | c :: rest =>
      match digit c with
      | Some d => digits (10 * acc + d) (len + 1) rest
      | None => (acc, len, s)
      end
  | [] => (acc, len, s)
  end.

(** An optional [-]. *)
Definition sign (s : list ascii) : bool * list ascii :=
  match s with
  | c :: rest => if c =? "-" then (true, rest) else (false, s)
  | [] => (false, s)
  end.

(** An optional fraction [. digits], after the integer part [int]: the
    mantissa, the number of decimals, the rest. *)
Definition fraction (int : Z) (s : list ascii) : option (Z * Z * list ascii) :=
  match s with
  | c :: rest =>
      if c =? "." then
        let '(m, flen, rest') := digits int 0 rest in
        if (flen =? 0)%Z then None else Some (m, flen, rest')
      else Some (int, 0%Z, s)
  | [] => Some (int, 0%Z, s)
  end.

(** An optional exponent [e digits], with an optional sign. *)
Definition exponent (s : list ascii) : option (Z * list ascii) :=
  match s with
  | c :: rest =>
      if (c =? "e") || (c =? "E") then
        let '(negative, rest1) :=
          match rest with
          | c' :: rest' =>
              if c' =? "-" then (true, rest')
              else if c' =? "+" then (false, rest')
              else (false, rest)
          | [] => (false, rest)
          end in
        let '(e, elen, rest2) := digits 0 0 rest1 in
        if (elen =? 0)%Z then None
        else Some (if negative then (- e)%Z else e, rest2)
      else Some (0%Z, s)
  | [] => Some (0%Z, s)
  end.

Definition starts_with_zero (s : list ascii) : bool :=
  match s with
  | c :: _ => c =? "0"
  | [] => false
  end.

(** [-? (0 | [1-9][0-9]* ) (. [0-9]+)? ([eE] [+-]? [0-9]+)?] *)
Definition parse_number (s : list ascii) : option (number * list ascii) :=
  let '(negative, s1) := sign s in
  let '(int, ilen, s2) := digits 0 0 s1 in
  if (ilen =? 0)%Z || (starts_with_zero s1 && (1 <? ilen)%Z) then None else
  match fraction int s2 with
  | None => None
  | Some (m, flen, s3) =>
      match exponent s3 with
      | None => None
      | Some (e, s4) =>
          Some (Num (if negative then (- m)%Z else m) (e - flen), s4)
      end
  end.

(** The pieces of a string literal: a byte taken as it stands, or the
    16-bit unit of a [\uXXXX] escape. *)
Inductive piece := Byte (c : ascii) | Unit (u : N).

Definition simple_escape (c : ascii) : option ascii :=
  if c =? "034" then Some "034"
  else if c =? "\" then Some "\"
  else if c =? "/" then Some "/"
  else if c =? "b" then Some "008"
  else if c =? "f" then Some "012"
  else if c =? "n" then Some "010"
  else if c =? "r" then Some "013"
  else if c =? "t" then Some "009"
  else None.

Definition unit_of (a b c d : ascii) : option N :=
  match hex_digit a, hex_digit b, hex_digit c, hex_digit d with
  | Some a, Some b, Some c, Some d =>
      Some (((a * 16 + b) * 16 + c) * 16 + d)%N
  | _, _, _, _ => None
  end.

Definition add_piece (p : option piece)
    (rest : option (list piece * list ascii))
  : option (list piece * list ascii) :=
  match p, rest with
  | Some p, Some (ps, rest') => Some (p :: ps, rest')
  | _, _ => None
  end.

(** The body of a string literal, after its opening quote. *)
Fixpoint string_pieces (s : list ascii) : option (list piece * list ascii) :=
  match s with
  | [] => None
  | c :: rest =>
      if c =? "034" then Some ([], rest)
      else if c =? "\" then
        match rest with
        | [] => None
        | e :: rest1 =>
            if e =? "u" then
              match rest1 with
              | a :: b :: c' :: d :: rest2 =>
                  add_piece (option_map Unit (unit_of a b c' d))
                    (string_pieces rest2)
              | _ => None
              end
            else
              add_piece (option_map Byte (simple_escape e))
                (string_pieces rest1)
        end
      else if (N_of_ascii c <? 32)%N then None
      else add_piece (Some (Byte c)) (string_pieces rest)
  end.

Definition byte_of (n : N) : ascii := ascii_of_N n.

(** UTF-8 of a code point. *)
Definition utf8 (cp : N) : list ascii :=
  if (cp <? 128)%N then [byte_of cp]
  else if (cp <? 2048)%N then
    [byte_of (192 + cp / 64); byte_of (128 + cp mod 64)]
  else if (cp <? 65536)%N then
    [byte_of (224 + cp / 4096); byte_of (128 + (cp / 64) mod 64);
     byte_of (128 + cp mod 64)]
  else
    [byte_of (240 + cp / 262144); byte_of (128 + (cp / 4096) mod 64);
     byte_of (128 + (cp / 64) mod 64); byte_of (128 + cp mod 64)].

Definition is_high_surrogate (u : N) : bool :=
  ((55296 <=? u) && (u <? 56320))%N.
Definition is_low_surrogate (u : N) : bool :=
  ((56320 <=? u) && (u <? 57344))%N.

(** The bytes of a string literal; an escaped surrogate pair is one
    code point. *)
Fixpoint bytes_of_pieces (ps : list piece) : list ascii :=
  match ps with
  | [] => []
  | Byte c :: rest => c :: bytes_of_pieces rest
  | Unit hi :: (Unit lo :: rest') as rest =>
      if is_high_surrogate hi && is_low_surrogate lo
      then utf8 (65536 + (hi - 55296) * 1024 + (lo - 56320))
             ++ bytes_of_pieces rest'
      else utf8 hi ++ bytes_of_pieces rest
  | Unit u :: rest => utf8 u ++ bytes_of_pieces rest
  end.

Definition parse_string (s : list ascii) : option (string * list ascii) :=
  match string_pieces s with
  | Some (ps, rest) => Some (string_of_list_ascii (bytes_of_pieces ps), rest)
  | None => None
  end.

(** A literal name or a number, at the head of [s]. *)
Definition parse_atom (s : list ascii) : option (json * list ascii) :=
  match after (list_ascii_of_string "true") s with
  | Some r => Some (JBool true, r)
  | None =>
  match after (list_ascii_of_string "false") s with
  | Some r => Some (JBool false, r)
  | None =>
  match after (list_ascii_of_string "null") s with
  | Some r => Some (JNull, r)
  | None =>
  match parse_number s with
  | Some (n, r) => Some (JNum n, r)
  | None => None
  end end end end.

(** Values, the elements of an array after its bracket, the members of
    an object after its brace. The fuel bounds the depth of the calls;
    twice the length of the input, and one more, is enough
    ([parse_value_fuel] below). *)
Fixpoint parse_value (fuel : nat) (s : list ascii)
  : option (json * list ascii) :=
  match fuel with
  | O => None
  | S fuel' =>
      match skip_ws s with
      | [] => None
      | c :: r =>
          if c =? "{" then
            match skip_ws r with
            | [] => None
            | c' :: r' =>
                if c' =? "}" then Some (JObj [], r')
                else parse_members fuel' r []
            end
          else if c =? "[" then
            match skip_ws r with
            | [] => None
            | c' :: r' =>
                if c' =? "]" then Some (JArr [], r')
                else parse_elements fuel' r []
            end
          else if c =? "034" then
            match parse_string r with
            | Some (str, r') => Some (JStr str, r')
            | None => None
            end
          else parse_atom (c :: r)
      end
  end
with parse_elements (fuel : nat) (s : list ascii) (acc : list json)
  : option (json * list ascii) :=
  match fuel with
  | O => None
  | S fuel' =>
      match parse_value fuel' s with
      | Some (v, r) =>
          match skip_ws r with
          | [] => None
          | c :: r' =>
              if c =? "," then parse_elements fuel' r' (acc ++ [v])
              else if c =? "]" then Some (JArr (acc ++ [v]), r')
              else None
          end
      | None => None
      end
  end
with parse_members (fuel : nat) (s : list ascii) (acc : list (string * json))
  : option (json * list ascii) :=
  match fuel with
  | O => None
  | S fuel' =>
      match skip_ws s with
      | [] => None
      | q :: r =>
          if q =? "034" then
            match parse_string r with
            | Some (k, r1) =>
                match skip_ws r1 with
                | [] => None
                | c :: r2 =>
                    if c =? ":" then
                      match parse_value fuel' r2 with
                      | Some (v, r3) =>
                          match skip_ws r3 with
                          | [] => None
                          | c' :: r4 =>
                              if c' =? "," then
                                parse_members fuel' r4 (define k v acc)
                              else if c' =? "}" then
                                Some (JObj (define k v acc), r4)
                              else None
                          end
                      | None => None
                      end
                    else None
                end
            | None => None
            end
          else None
      end
  end.

End Parse.

(** [JSON.parse(text)]: one value, with white space around it and
    nothing else. *)
Definition JSON_parse_with (fuel : nat) (text : string) : option json :=
  match Parse.parse_value fuel (list_ascii_of_string text) with
  | Some (v, rest) =>
      match Parse.skip_ws rest with
      | [] => Some v
      | _ => None
      end
  | None => None
  end.

Definition JSON_parse (text : string) : option json :=
  JSON_parse_with (2 * String.length text + 1) text.

End JS.

(* ===================================================================== *)
(** * Effects *)
(* ===================================================================== *)

Module Run.

Import JS.

(** ** Exceptions and promises *)

Inductive exn :=
| SyntaxError (input : string)   (* thrown by [JSON.parse] *)
| TypeError                      (* a read or a call on a value without it *)
| ExitError (code : Z)           (* [new ExitError(code)] *)
| Failure (what : string).       (* a rejection that comes from outside *)

(** What [await p] finds: the promise fulfilled, or rejected. *)
Inductive settled (A : Type) :=
| Resolved (a : A)
| Rejected (e : exn).
Arguments Resolved {A} a.
Arguments Rejected {A} e.

(** ** The data of the program *)

(** Modelled from the spec: [TwoFactorState] is declared in
    utils/types.ts, which is not among the sources. Section 3 of the
    specification gives it a token, a string or nothing, and a promise
    of a boolean; the code reads and writes these two fields and no
    other ([token] is compared with [null]; [isRequired] is awaited and
    assigned [Promise.resolve(true)]). *)
Record TwoFactorState := {
  token : option string;          (* [string | null] *)
  isRequired : settled bool       (* [Promise<boolean>] *)
}.

(** Modelled from the spec: [PackageJSON] is declared in the package
    @changesets/types, which is not among the sources. The code reads
    [name] and the optional [publishConfig.registry]; section 3 of the
    specification names the same two (a name, an optional registry
    override). *)
Record PublishConfig := { registry : option string }.
Record PackageJSON := {
  name : string;
  publishConfig : option PublishConfig
}.

(** The three [pLimit] instances of the file. *)
Inductive gate := npmRequestLimit | npmPublishLimit | otpAskLimit.

(** The options given to [spawn]: the working directory, and the value
    that overrides [npm_config_registry] in the child's environment. *)
Record SpawnOptions := {
  spawn_cwd : option string;
  spawn_registry : option string
}.

Record SpawnResult := { code : Z; stdout : string; stderr : string }.

(** [preferredPM] resolves to an object with a [name], or to nothing. *)
Record PM := { pm_name : string; pm_version : string }.

(** What [semver.parse] returns for a version it accepts. *)
Record SemVer := { major : N; minor : N; patch : N }.

(** ** What the world is asked and told *)

(** The three functions of @changesets/logger, and [console.error]. *)
Inductive level := Info | Warn | Error | ConsoleError.

(** A log line: the texts and the values it is made of, in order. *)
Inductive item := Text (s : string) | Val (v : value).

Inductive event :=
| PreferredPM (cwd : string)
| Spawn (cmd : string) (args : list string) (options : SpawnOptions)
| Ask (question : string)
| Log (l : level) (line : list item)
| Enter (g : gate)
| Leave (g : gate).

(** The surroundings of a run: what the program imports and does not
    define. [isCI] (utils/isCI) and [process.env.npm_config_registry]
    are constants of a run; [preferredPM], [spawn] (spawndamnit) and
    [askQuestion] (utils/cli-utilities, which answers with the line the
    operator types) are asked, and every answer may depend on the
    moment it is asked at ([nat]: the number of earlier interactions);
    [semver.parse] is a function of the text. [meanwhile] is what the
    other callers that share the two-factor state did to it while this
    one waited to be admitted by a gate. *)
Record Env := {
  isCI : bool;
  npm_config_registry : option string;
  preferred_pm : nat -> string -> settled (option PM);
  semver_parse : string -> option SemVer;
  spawn_outcome :
    nat -> string -> list string -> SpawnOptions -> settled SpawnResult;
  operator_input : nat -> string -> string;
  meanwhile : nat -> gate -> TwoFactorState -> TwoFactorState
}.

Record World := {
  twoFactorState : TwoFactorState;   (* the one shared object *)
  clock : nat;                       (* interactions so far *)
  trace : list event                 (* oldest first *)
}.

(** ** The monad *)

(** [Unfinished]: the run was cut short (the retries outlasted the
    fuel); it is neither a return nor an exception, and no handler
    catches it. *)
Inductive outcome (A : Type) :=
| Returned (a : A)
| Thrown (e : exn)
| Unfinished.
Arguments Returned {A} a.
Arguments Thrown {A} e.
Arguments Unfinished {A}.

Definition M (A : Type) := World -> outcome A * World.

Definition ret {A} (a : A) : M A := fun w => (Returned a, w).

Definition bind {A B} (m : M A) (k : A -> M B) : M B :=
  fun w =>
    match m w with
    | (Returned a, w') => k a w'
    | (Thrown e, w') => (Thrown e, w')
    | (Unfinished, w') => (Unfinished, w')
    end.

Definition throw {A} (e : exn) : M A := fun w => (Thrown e, w).

Definition unfinished {A} : M A := fun w => (Unfinished, w).

(** [try { body } catch (e) { handler }] *)
Definition try_catch {A} (body : M A) (handler : exn -> M A) : M A :=
  fun w =>
    match body w with
    | (Thrown e, w') => handler e w'
    | r => r
    end.

Declare Scope run_scope.
Delimit Scope run_scope with run.
Notation "x <- m ;; k" := (bind m (fun x => k))
  (at level 61, m at next level, right associativity) : run_scope.
Notation "m ;; k" := (bind m (fun _ => k))
  (at level 61, right associativity) : run_scope.
Local Open Scope run_scope.

(** [await p] of an already settled promise. *)
Definition await {A} (p : settled A) : M A :=
  match p with
  | Resolved a => ret a
  | Rejected e => throw e
  end.

(** A read or call that throws a [TypeError] where it is undefined. *)
Definition or_type_error {A} (r : option A) : M A :=
  match r with
  | Some a => ret a
  | None => throw TypeError
  end.

Definition emit (e : event) : M unit :=
  fun w => (Returned tt,
            {| twoFactorState := twoFactorState w;
               clock := clock w;
               trace := trace w ++ [e] |}).

Definition tick : M nat :=
  fun w => (Returned (clock w),
            {| twoFactorState := twoFactorState w;
               clock := S (clock w);
               trace := trace w |}).

Definition read : M TwoFactorState :=
  fun w => (Returned (twoFactorState w), w).

Definition write (s : TwoFactorState) : M unit :=
  fun w => (Returned tt,
            {| twoFactorState := s; clock := clock w; trace := trace w |}).

(** [twoFactorState.token = v] and [twoFactorState.isRequired = p] *)
Definition set_token (v : option string) : M unit :=
  s <- read ;; write {| token := v; isRequired := isRequired s |}.

Definition set_isRequired (p : settled bool) : M unit :=
  s <- read ;; write {| token := token s; isRequired := p |}.

Definition log (l : level) (line : list item) : M unit := emit (Log l line).

Section Surroundings.

Variable env : Env.

(** [await preferredPM(cwd)] *)
Definition preferredPM (cwd : string) : M (option PM) :=
  emit (PreferredPM cwd) ;;
  now <- tick ;;
  await (preferred_pm env now cwd).

(** [await spawn(cmd, args, options)] *)
Definition spawn (cmd : string) (args : list string) (options : SpawnOptions)
  : M SpawnResult :=
  emit (Spawn cmd args options) ;;
  now <- tick ;;
  await (spawn_outcome env now cmd args options).

(** [await askQuestion(question)] *)
Definition askQuestion (question : string) : M string :=
  emit (Ask question) ;;
  now <- tick ;;
  ret (operator_input env now question).

(** [limit(fn)] for a [pLimit] instance: the unit of work waits for a
    slot, runs, and gives the slot back whether it returned or threw.
    While it waited, the other callers went on. A unit that the bound on
    the attempts cuts short is recorded as leaving too; in the program a
    unit that has not settled keeps its slot, so what is said of the
    slots at the end of a run is said of runs that end. *)
Definition limit {A} (g : gate) (fn : M A) : M A :=
  fun w =>
    let '(_, w1) :=
      (emit (Enter g) ;;
       now <- tick ;;
       s <- read ;;
       write (meanwhile env now g s)) w in
    let '(r, w2) := fn w1 in
    let '(_, w3) := emit (Leave g) w2 in
    (r, w3).

End Surroundings.

End Run.

(* ===================================================================== *)
(** * npm-utils.ts *)
(* ===================================================================== *)

Module NpmUtils.

Import JS Run.
Local Open Scope run_scope.
Local Open Scope list_scope.

(** [type PublishTool] *)
Inductive PublishTool :=
| npm
| pnpm (shouldAddNoGitChecks : bool)
| yarn (berry : bool).

Definition tool_name (t : PublishTool) : string :=
  match t with
  | npm => "npm"
  | pnpm _ => "pnpm"
  | yarn _ => "yarn"
  end.

(** The options of a publish call, and its result. *)
Record PublishOptions := {
  cwd : string;
  access : option string;
  tag : string
}.

Record PublishResult := { published : bool }.

(** The result of [infoAllow404]. *)
Record InfoResult := { info_published : bool; pkgInfo : json }.

Definition yarnpkg_registry := "https://registry.yarnpkg.com".
Definition npmjs_registry := "https://registry.npmjs.org".
Definition otp_flag_text := "--otp=<code>".

(** [function jsonParse(input)] *)
Definition jsonParse (input : string) : M json :=
  match JSON_parse input with
  | Some j => ret j
  | None =>
      log ConsoleError [Text "error parsing json:"; Text input] ;;
      throw (SyntaxError input)
  end.

Section Surroundings.

Variable env : Env.

(** [function getCorrectRegistry(packageJson?)] *)
Definition getCorrectRegistry (packageJson : option PackageJSON) : string :=
  let registry :=
    nullish
      (match packageJson with
       | Some p =>
           match publishConfig p with
           | Some c => registry c
           | None => None
           end
       | None => None
       end)
      (npm_config_registry env) in
  if negb (truthy_string registry) || same_string registry yarnpkg_registry
  then npmjs_registry
  else match registry with
       | Some r => r
       | None => npmjs_registry   (* not reached: [undefined] is falsy *)
       end.

(** [pm?.name === n] *)
Definition pm_is (pm : option PM) (n : string) : bool :=
  match pm with
  | Some p => pm_name p =? n
  | None => false
  end.

(** [parsed?.major === undefined ? false : parsed.major >= least] *)
Definition major_at_least (parsed : option SemVer) (least : N) : bool :=
  match parsed with
  | None => false
  | Some v => (least <=? major v)%N
  end.

(** [async function getPublishTool(cwd)] *)
Definition getPublishTool (cwd : string) : M PublishTool :=
  pm <- preferredPM env cwd ;;
  if pm_is pm "pnpm" then
    try_catch
      (result <- spawn env "pnpm" ["--version"]
                   {| spawn_cwd := Some cwd; spawn_registry := None |} ;;
       let version := trim (stdout result) in
       let parsed := semver_parse env version in
       ret (pnpm (major_at_least parsed 5)))
      (fun _ => ret (pnpm false))
  else if pm_is pm "yarn" then
    try_catch
      (result <- spawn env "yarn" ["--version"]
                   {| spawn_cwd := Some cwd; spawn_registry := None |} ;;
       let version := trim (stdout result) in
       let parsed := semver_parse env version in
       ret (yarn (major_at_least parsed 2)))
      (fun _ => ret (yarn false))
  else ret npm.

(** [export async function getTokenIsRequired()] *)
Definition getTokenIsRequired : M bool :=
  let envOverride := getCorrectRegistry None in
  result <- spawn env "npm" ["profile"; "get"; "--json"]
              {| spawn_cwd := None; spawn_registry := Some envOverride |} ;;
  json <- jsonParse (stdout result) ;;
  error <- or_type_error (get (Some json) "error") ;;
  if truthy error then ret false else
  tfa <- or_type_error (get (Some json) "tfa") ;;
  if negb (truthy tfa) then ret false else
  mode <- or_type_error (get tfa "mode") ;;
  if negb (truthy mode) then ret false else
  ret (strict_eq_string mode "auth-and-writes").

(** [export function getPackageInfo(packageJson)] *)
Definition getPackageInfo (packageJson : PackageJSON) : M json :=
  limit env npmRequestLimit
    (log Info [Text "npm info "; Text (name packageJson)] ;;
     result <- spawn env "npm"
                 ["info"; name packageJson; "--registry";
                  getCorrectRegistry (Some packageJson); "--json"]
                 {| spawn_cwd := None; spawn_registry := None |} ;;
     if stdout result =? ""
     then ret (JObj [("error", JObj [("code", JStr "E404")])])
     else jsonParse (stdout result)).

(** [export async function infoAllow404(packageJson)]. The error line
    holds the code as a value, as in [actOn] below: the template literal
    of line 138 is not computed, and a code that is an object or an
    array, for which it can throw, is outside the model. *)
Definition infoAllow404 (packageJson : PackageJSON) : M InfoResult :=
  pkgInfo <- getPackageInfo packageJson ;;
  error <- or_type_error (get (Some pkgInfo) "error") ;;
  if strict_eq_string (field_opt error "code") "E404" then
    log Warn [Text "Received 404 for npm info ";
              Text double_quote; Text (name packageJson); Text double_quote] ;;
    ret {| info_published := false; pkgInfo := JObj [] |}
  else if truthy error then
    log Error [Text "Received an unknown error code: ";
               Val (field error "code");
               Text " for npm info ";
               Text double_quote; Text (name packageJson); Text double_quote] ;;
    log Error [Val (field error "summary")] ;;
    (if truthy (field error "detail")
     then log Error [Val (field error "detail")]
     else ret tt) ;;
    throw (ExitError 1)
  else ret {| info_published := true; pkgInfo := pkgInfo |}.

(** [let askForOtpCode = (twoFactorState) => otpAskLimit(async () => ...)] *)
Definition askForOtpCode : M string :=
  limit env otpAskLimit
    (s <- read ;;
     match token s with
     | Some t => ret t
     | None =>
         log Info
           [Text "This operation requires a one-time password from your authenticator."] ;;
         val <- askQuestion env "Enter one-time password:" ;;
         set_token (Some val) ;;
         ret val
     end).

(** [export let getOtpCode = async (twoFactorState) => ...] *)
Definition getOtpCode : M string :=
  s <- read ;;
  match token s with
  | Some t => ret t
  | None => askForOtpCode
  end.

(** [internalPublish], lines 178 to 208: the tool is detected, the
    arguments are built, the tool is spawned; the result is the standard
    output of the tool. *)
Definition publishArgs_start (publishTool : PublishTool) (opts : PublishOptions)
  : list string :=
  (match publishTool with
   | yarn true => ["npm"]
   | _ => []
   end)
  ++ ["publish"; cwd opts; "--json"]
  ++ (if truthy_string (access opts)
      then match access opts with
           | Some a => ["--access"; a]
           | None => []
           end
      else [])
  ++ ["--tag"; tag opts].

Definition publishArgs_end (publishTool : PublishTool) : list string :=
  match publishTool with
  | pnpm true => ["--no-git-checks"]
  | _ => []
  end.

Definition spawnPublish (opts : PublishOptions) : M string :=
  publishTool <- getPublishTool (cwd opts) ;;
  let publishArgs := publishArgs_start publishTool opts in
  s <- read ;;
  required <- await (isRequired s) ;;
  publishArgs <-
    (if required && negb (isCI env) then
       otpCode <- getOtpCode ;;
       ret (publishArgs ++ ["--otp"; otpCode])
     else ret publishArgs) ;;
  let publishArgs := publishArgs ++ publishArgs_end publishTool in
  let envOverride := getCorrectRegistry None in
  result <- spawn env (tool_name publishTool) publishArgs
              {| spawn_cwd := None; spawn_registry := Some envOverride |} ;;
  ret (stdout result).

(** The test of lines 219 to 221, before [&& !isCI]:
    [code === "EOTP" || (code === "E401" && detail.includes("--otp=<code>"))] *)
Definition otp_error_test (error : value) : M bool :=
  if strict_eq_string (field error "code") "EOTP" then ret true
  else if strict_eq_string (field error "code") "E401" then
    or_type_error (call_includes (field error "detail") otp_flag_text)
  else ret false.

(** [internalPublish], lines 215 to 237: what is done with the parsed
    output; [again] is the call [internalPublish(pkgName, opts,
    twoFactorState)] of line 230. The failure line holds the code and
    the detail as values: the text that the template literal of line 233
    and the concatenation of line 235 make of them is not computed. For
    a primitive value that conversion always gives a text; for an object
    or an array it can throw (an object with a key [toString]), which
    is not modelled. *)
Definition actOn (again : M PublishResult) (pkgName : string) (json : json)
  : M PublishResult :=
  error <- or_type_error (get (Some json) "error") ;;
  if negb (truthy error) then ret {| published := true |} else
  otp <- otp_error_test error ;;
  if otp && negb (isCI env) then
    s <- read ;;
    (match token s with
     | Some _ => set_token None
     | None => ret tt
     end) ;;
    set_isRequired (Resolved true) ;;
    again
  else
    log Error ([Text "an error occurred while publishing ";
                Text pkgName; Text ": "; Val (field error "code");
                Val (field error "summary")]
               ++ (if truthy (field error "detail")
                   then [Text line_feed; Val (field error "detail")]
                   else [Text ""])) ;;
    ret {| published := false |}.

(** [internalPublish], lines 213 to 237: the output is stripped of what
    precedes its first brace, parsed, and acted on. *)
Definition handleOutput (again : M PublishResult) (pkgName : string)
    (stdout : string) : M PublishResult :=
  json <- jsonParse (replace_non_brace_prefix stdout) ;;
  actOn again pkgName json.

(** [async function internalPublish(pkgName, opts, twoFactorState)]. The
    fuel bounds the number of attempts: the code itself has no bound. *)
Fixpoint internalPublish (fuel : nat) (pkgName : string)
    (opts : PublishOptions) : M PublishResult :=
  match fuel with
  | O => unfinished
  | S fuel' =>
      stdout <- spawnPublish opts ;;
      handleOutput (internalPublish fuel' pkgName opts) pkgName stdout
  end.

(** [export function publish(pkgName, opts, twoFactorState)] *)
Definition publish (fuel : nat) (pkgName : string) (opts : PublishOptions)
  : M PublishResult :=
  limit env npmRequestLimit
    (limit env npmPublishLimit (internalPublish fuel pkgName opts)).

End Surroundings.

End NpmUtils.


(* ===================================================================== *)
(** * The gates among many callers *)
(* ===================================================================== *)

Module PLimit.

Import Run.
Local Open Scope nat_scope.

(** An instance of [pLimit(concurrency)], as the package p-limit keeps
    it: the number of units of work it has started and not seen settle,
    and the queue of the units that wait. [running] names the started
    units; p-limit itself keeps only their number. *)
Record limiter := {
  concurrency : nat;
  activeCount : nat;
  queue : list nat;
  running : list nat
}.

Definition pLimit (concurrency : nat) : limiter :=
  {| concurrency := concurrency; activeCount := 0; queue := []; running := [] |}.

(** [run]: [activeCount++] and the unit is started. *)
Definition run (unit : nat) (l : limiter) : limiter :=
  {| concurrency := concurrency l;
     activeCount := S (activeCount l);
     queue := queue l;
     running := unit :: running l |}.

(** [enqueue], what a call [limit(fn)] does: the unit is started at once
    when a slot is free, and queued otherwise. *)
Definition enqueue (unit : nat) (l : limiter) : limiter :=
  if activeCount l <? concurrency l then run unit l
  else {| concurrency := concurrency l;
          activeCount := activeCount l;
          queue := queue l ++ [unit];
          running := running l |}.

(** [next]: [activeCount--], and the head of the queue is started. *)
Definition next (l : limiter) : limiter :=
  match queue l with
  | [] => {| concurrency := concurrency l;
             activeCount := pred (activeCount l);
             queue := [];
             running := running l |}
  | head :: rest =>
      run head {| concurrency := concurrency l;
                  activeCount := pred (activeCount l);
                  queue := rest;
                  running := running l |}
  end.

Fixpoint remove_one (unit : nat) (units : list nat) : list nat :=
  match units with
  | [] => []
  | u :: rest => if u =? unit then rest else u :: remove_one unit rest
  end.

(** The promise of a started unit settles (fulfilled or rejected):
    [next] is called. Only a started unit can settle. *)
Definition settle (unit : nat) (l : limiter) : limiter :=
  if existsb (Nat.eqb unit) (running l) then
    next {| concurrency := concurrency l;
            activeCount := activeCount l;
            queue := queue l;
            running := remove_one unit (running l) |}
  else l.

(** The three instances of npm-utils.ts (lines 13, 14 and 150). *)
Definition instance (g : gate) : limiter :=
  match g with
  | npmRequestLimit => pLimit 40
  | npmPublishLimit => pLimit 10
  | otpAskLimit => pLimit 1
  end.

Definition gate_eqb (g g' : gate) : bool :=
  match g, g' with
  | npmRequestLimit, npmRequestLimit
  | npmPublishLimit, npmPublishLimit
  | otpAskLimit, otpAskLimit => true
  | _, _ => false
  end.

(** What the callers of the process do to the gates, in any order: a
    unit of work is handed to a gate, or a started one settles. *)
Inductive action :=
| Call (g : gate) (unit : nat)
| Settle (g : gate) (unit : nat).

Definition gates := gate -> limiter.

Definition act (s : gates) (a : action) : gates :=
  fun g' =>
    match a with
    | Call g unit => if gate_eqb g' g then enqueue unit (s g') else s g'
    | Settle g unit => if gate_eqb g' g then settle unit (s g') else s g'
    end.

Definition after (schedule : list action) : gates :=
  fold_left act schedule instance.

(** The units that execute in gate [g] after a schedule. *)
Definition executing (schedule : list action) (g : gate) : nat :=
  List.length (running (after schedule g)).

End PLimit.
(* ===================================================================== *)
(** * The vocabulary of the specification *)
(* ===================================================================== *)

Import JS Run NpmUtils.
Local Open Scope run_scope.
Local Open Scope list_scope.

(** ** Registry resolution *)

(** The policy in the words of the specification: the package's value
    when present, else the environment's; the canonical registry when
    that value is absent, empty, or the yarn mirror. *)
Definition effective_registry (p e : option string) : string :=
  match (match p with Some v => Some v | None => e end) with
  | None => "https://registry.npmjs.org"
  | Some v =>
      if (v =? "") || (v =? "https://registry.yarnpkg.com")
      then "https://registry.npmjs.org"
      else v
  end.

(** The package-level value a [packageJson] argument carries. *)
Definition with_registry (n : string) (p : option string) : PackageJSON :=
  {| name := n; publishConfig := Some {| registry := p |} |}.

(** ** Tool detection *)

(** The version probe of a tool, asked at moment [now]: the version
    parsed from the standard output of [cmd --version], or nothing when
    the spawn fails or the output is not a version. *)
Definition version_probe (env : Env) (now : nat) (cmd cwd : string)
  : option SemVer :=
  match spawn_outcome env now cmd ["--version"]
          {| spawn_cwd := Some cwd; spawn_registry := None |} with
  | Resolved r => semver_parse env (trim (stdout r))
  | Rejected _ => None
  end.

(** The tool the specification asks for, given the preferred package
    manager and the two probes. *)
Definition detected_tool (pm : option PM) (pnpm_probe yarn_probe : option SemVer)
  : PublishTool :=
  match pm with
  | Some p =>
      if pm_name p =? "pnpm" then
        match pnpm_probe with
        | Some v => pnpm (5 <=? major v)%N
        | None => pnpm false
        end
      else if pm_name p =? "yarn" then
        match yarn_probe with
        | Some v => yarn (2 <=? major v)%N
        | None => yarn false
        end
      else npm
  | None => npm
  end.

(** ** The output of the publishing tool *)

(** The error code and the detail text of a parsed output. *)
Definition error_code (j : json) : value :=
  field (field (Some j) "error") "code".

Definition error_detail (j : json) : value :=
  field (field (Some j) "error") "detail".

(** An output whose error code is "EOTP", or is "E401" with a detail
    text that contains "--otp=<code>". *)
Definition otp_related (j : json) : bool :=
  strict_eq_string (error_code j) "EOTP"
  || (strict_eq_string (error_code j) "E401"
      && match error_detail j with
         | Some (JStr d) => includes "--otp=<code>" d
         | _ => false
         end).

(** The line [internalPublish] logs for a failed publish. *)
Definition failure_line (pkgName : string) (j : json) : event :=
  let error := field (Some j) "error" in
  Log Error ([Text "an error occurred while publishing ";
              Text pkgName; Text ": "; Val (field error "code");
              Val (field error "summary")]
             ++ (if truthy (field error "detail")
                 then [Text line_feed; Val (field error "detail")]
                 else [Text ""])).

(** A world that differs from [w] in its state or its latest events. *)
Definition with_state (s : TwoFactorState) (w : World) : World :=
  {| twoFactorState := s; clock := clock w; trace := trace w |}.

Definition and_then (w : World) (events : list event) : World :=
  {| twoFactorState := twoFactorState w;
     clock := clock w;
     trace := trace w ++ events |}.

(** A string without an opening brace. *)
Definition no_brace (s : string) : Prop :=
  ~ In "{"%char (list_ascii_of_string s).

(** ** Sample surroundings *)

(** JSON texts are written here with an apostrophe where the text has a
    double quote. *)
Fixpoint quoted (s : string) : string :=
  match s with
  | EmptyString => EmptyString
  | String c rest =>
      String (if (c =? "'")%char then "034"%char else c) (quoted rest)
  end.

Definition exits (out : string) : settled SpawnResult :=
  Resolved {| code := 0; stdout := out; stderr := "" |}.

Definition among (x : string) (l : list string) : bool :=
  existsb (String.eqb x) l.

(** A directory where [pm] is preferred, tools that report version
    [9.1.0], an operator who types "123456", nobody else around; the
    spawned commands answer as [respond] says. *)
Definition surroundings (ci : bool) (pm : option string)
    (respond : string -> list string -> settled SpawnResult) : Env :=
  {| isCI := ci;
     npm_config_registry := Some yarnpkg_registry;
     preferred_pm := fun _ _ =>
       Resolved (option_map (fun n => {| pm_name := n; pm_version := "" |}) pm);
     semver_parse := fun v =>
       if v =? "9.1.0" then Some {| major := 9; minor := 1; patch := 0 |}
       else None;
     spawn_outcome := fun _ cmd args _ =>
       if among "--version" args
       then exits (String.append " 9.1.0" line_feed)
       else respond cmd args;
     operator_input := fun _ _ => "123456";
     meanwhile := fun _ _ s => s |}.

(** The output of a successful publish whose hook printed a line before
    the JSON, and the output of a publish refused for want of a one-time
    password, with the value it parses to. *)
Definition hooked_output : string :=
  String.append "prepublish hook ran"
    (String.append line_feed (quoted "{'published':true}")).

Definition eotp_output : string :=
  quoted "{'error':{'code':'EOTP','summary':'one-time pass'}}".

Definition eotp_json : json :=
  JObj [("error",
         JObj [("code", JStr "EOTP"); ("summary", JStr "one-time pass")])].

(** A registry that wants a one-time password: it accepts a publish
    that carries one and answers EOTP to one that does not. *)
Definition registry_with_2fa (cmd : string) (args : list string)
  : settled SpawnResult :=
  if among "--otp" args then exits hooked_output else exits eotp_output.

(** A registry that answers a fixed output to every command. *)
Definition registry_saying (out : string) (cmd : string) (args : list string)
  : settled SpawnResult := exits out.

Definition fresh_world : World :=
  {| twoFactorState := {| token := None; isRequired := Resolved false |};
     clock := 0;
     trace := [] |}.

Definition sample_opts : PublishOptions :=
  {| cwd := "packages/a"; access := Some "public"; tag := "latest" |}.

Definition sample_package : PackageJSON :=
  {| name := "a"; publishConfig := None |}.

(** The same world, with the one-time password known to be required. *)
Definition world_requiring_otp : World :=
  {| twoFactorState := {| token := None; isRequired := Resolved true |};
     clock := 0;
     trace := [] |}.

(** An E401 error without detail, and the value it parses to. *)
Definition unauthorized_output : string :=
  quoted "{'error':{'code':'E401','summary':'Unauthorized'}}".

Definition unauthorized_json : json :=
  JObj [("error",
         JObj [("code", JStr "E401"); ("summary", JStr "Unauthorized")])].

(** An error that is not about the one-time password, and the value it
    parses to. *)
Definition server_error_output : string :=
  quoted "{'error':{'code':'E500','summary':'Internal Server Error'}}".

Definition server_error_fields : list (string * json) :=
  [("error",
    JObj [("code", JStr "E500"); ("summary", JStr "Internal Server Error")])].

(** ** What a computation leaves behind *)

(** Every event a run of [m] adds to the trace satisfies [P]. *)
Definition traces {A} (P : event -> Prop) (m : M A) : Prop :=
  forall w, exists events,
    trace (snd (m w)) = trace w ++ events /\ Forall P events.

(** A run of [m] leaves the two-factor state as it found it. *)
Definition stateless {A} (m : M A) : Prop :=
  forall w, twoFactorState (snd (m w)) = twoFactorState w.

(** The events of a publish that neither prompts nor passes a password:
    no question to the operator, no use of the prompt gate, and no
    spawn other than a version probe or a publish whose arguments are
    the ones built without the [--otp] pair. *)
Definition asks_no_otp (opts : PublishOptions) (e : event) : Prop :=
  match e with
  | Ask _ => False
  | Enter g | Leave g => g <> otpAskLimit
  | Spawn _ args _ =>
      args = ["--version"]
      \/ exists tool, args = publishArgs_start tool opts ++ publishArgs_end tool
  | PreferredPM _ | Log _ _ => True
  end.

(** ** Gates, as one caller sees them *)

(** The world in which a unit of work starts, once gate [g] admits it. *)
Definition admitted (env : Env) (g : gate) (w : World) : World :=
  {| twoFactorState := meanwhile env (clock w) g (twoFactorState w);
     clock := S (clock w);
     trace := trace w ++ [Enter g] |}.

(** ** The info query *)

Definition not_found : json := JObj [("error", JObj [("code", JStr "E404")])].

Definition info_args (env : Env) (packageJson : PackageJSON) : list string :=
  ["info"; name packageJson; "--registry";
   getCorrectRegistry env (Some packageJson); "--json"].

Definition plain_options : SpawnOptions :=
  {| spawn_cwd := None; spawn_registry := None |}.

Definition warning_404 (packageJson : PackageJSON) : event :=
  Log Warn [Text "Received 404 for npm info ";
            Text double_quote; Text (name packageJson); Text double_quote].

(** ** The one-time password *)

Definition otp_notice : event :=
  Log Info
    [Text "This operation requires a one-time password from your authenticator."].

Definition otp_question : string := "Enter one-time password:".

(** ** The profile query *)

Definition profile_args : list string := ["profile"; "get"; "--json"].

Definition profile_options (env : Env) : SpawnOptions :=
  {| spawn_cwd := None;
     spawn_registry := Some (getCorrectRegistry env None) |}.

(** A profile that makes a token required: no error in it (the tools
    put an object there; a missing or falsy field is no error), and a
    [tfa] object whose [mode] is "auth-and-writes". *)
Definition has_error (j : json) : bool := truthy (field (Some j) "error").

Definition tfa_mode (j : json) : value :=
  match field (Some j) "tfa" with
  | Some (JObj tfa) => lookup "mode" tfa
  | _ => None
  end.

Definition requires_token (j : json) : bool :=
  negb (has_error j) && strict_eq_string (tfa_mode j) "auth-and-writes".

(** The profile of an account with two-factor authentication for
    writes. *)
Definition profile_with_2fa : string :=
  quoted "{'tfa':{'pending':false,'mode':'auth-and-writes'},'name':'me'}".

(** ** Gates around a publish *)

(** The events of the work done inside a publish: none of them enters
    or leaves the request gate or the publish gate. *)
Definition inside_publish (e : event) : Prop :=
  match e with
  | Enter g | Leave g => g = otpAskLimit
  | _ => True
  end.

(** The invariant of a p-limit instance. *)
Definition limiter_ok (l : PLimit.limiter) : Prop :=
  List.length (PLimit.running l) = PLimit.activeCount l
  /\ PLimit.activeCount l <= PLimit.concurrency l.

(** The slots of gate [g] a caller holds after [events]: the times it
    was admitted, less the times it left. *)
Definition enters (g : gate) (e : event) : bool :=
  match e with
  | Enter g' => PLimit.gate_eqb g g'
  | _ => false
  end.

Definition leaves (g : gate) (e : event) : bool :=
  match e with
  | Leave g' => PLimit.gate_eqb g g'
  | _ => false
  end.

Definition holding (g : gate) (events : list event) : nat :=
  List.length (filter (enters g) events)
  - List.length (filter (leaves g) events).

(** Event [e] of a run happens outside gate [g]: wherever it stands in
    the events of the run, no slot of [g] is held at that point. *)
Definition outside_gate (g : gate) (events : list event) (e : event) : Prop :=
  forall before after,
    events = before ++ e :: after -> holding g before = 0.

(** The publish that the sample operator's password goes with: the
    second attempt, after the registry answered EOTP to the first. *)
Definition retried_publish : event :=
  Spawn "npm"
    ["publish"; "packages/a"; "--json"; "--access"; "public";
     "--tag"; "latest"; "--otp"; "123456"]
    {| spawn_cwd := None;
       spawn_registry := Some "https://registry.npmjs.org" |}.

(** ** Vocabulary for the further properties *)

(** The world after [ticks] more interactions that left [events]. *)
Definition later (w : World) (ticks : nat) (events : list event) : World :=
  {| twoFactorState := twoFactorState w;
     clock := ticks + clock w;
     trace := trace w ++ events |}.

(** The options of a version probe in [cwd], and the probe that goes
    with a preferred package manager: none for npm or for no manager. *)
Definition probe_options (cwd : string) : SpawnOptions :=
  {| spawn_cwd := Some cwd; spawn_registry := None |}.

Definition probe_events (pm : option PM) (cwd : string) : list event :=
  if pm_is pm "pnpm" then [Spawn "pnpm" ["--version"] (probe_options cwd)]
  else if pm_is pm "yarn" then [Spawn "yarn" ["--version"] (probe_options cwd)]
  else [].

(** The tool detected for [pm] at moment [now] (the moment of the
    probe), and the world tool detection leaves. *)
Definition tool_at (env : Env) (now : nat) (cwd : string) (pm : option PM)
  : PublishTool :=
  detected_tool pm (version_probe env now "pnpm" cwd)
    (version_probe env now "yarn" cwd).

Definition detected (w : World) (cwd : string) (pm : option PM) : World :=
  later w (S (List.length (probe_events pm cwd)))
    (PreferredPM cwd :: probe_events pm cwd).

(** The publish command: the arguments, with the [--otp] pair when a
    password goes with them, and the options of the spawn. *)
Definition publish_args (tool : PublishTool) (opts : PublishOptions)
    (otp : option string) : list string :=
  publishArgs_start tool opts
  ++ (match otp with
      | Some code => ["--otp"; code]
      | None => []
      end)
  ++ publishArgs_end tool.

Definition publish_options (env : Env) : SpawnOptions :=
  {| spawn_cwd := None;
     spawn_registry := Some (getCorrectRegistry env None) |}.

Definition publish_spawn (env : Env) (tool : PublishTool)
    (opts : PublishOptions) (otp : option string) : event :=
  Spawn (tool_name tool) (publish_args tool opts otp) (publish_options env).

(** What [await spawn(...)] gives to [internalPublish]: the standard
    output, or the rejection. *)
Definition output_of (r : settled SpawnResult) : outcome string :=
  match r with
  | Resolved result => Returned (stdout result)
  | Rejected e => Thrown e
  end.

(** Surroundings in which no command can be started: every spawn is
    rejected (the tool is not installed). *)
Definition nothing_runs : Env :=
  {| isCI := false;
     npm_config_registry := None;
     preferred_pm := fun _ _ => Resolved None;
     semver_parse := fun _ => None;
     spawn_outcome := fun _ _ _ _ => Rejected (Failure "ENOENT");
     operator_input := fun _ _ => "123456";
     meanwhile := fun _ _ s => s |}.

(** [m'] ends as [m] does wherever [m] ends: it returns or throws the
    same, in the same world. *)
Definition extends {A} (m m' : M A) : Prop :=
  forall w r w', m w = (r, w') -> r <> Unfinished -> m' w = (r, w').

(** The test of lines 219 to 221 as a value: [None] where the read of
    [detail.includes] throws. *)
Definition otp_error (error : value) : option bool :=
  if strict_eq_string (field error "code") "EOTP" then Some true
  else if strict_eq_string (field error "code") "E401" then
    call_includes (field error "detail") otp_flag_text
  else Some false.

(** The state after the retry edge. *)
Definition retry_state : TwoFactorState :=
  {| token := None; isRequired := Resolved true |}.

(** The one-time password is known to be required. *)
Definition required_known (s : TwoFactorState) : Prop :=
  isRequired s = Resolved true.

(** The other callers never take that knowledge back. *)
Definition others_keep_required (env : Env) : Prop :=
  forall now g s, required_known s -> required_known (meanwhile env now g s).

(** The world of an info query once its spawn has been made, and the
    events of a query whose spawn is the last thing it does. *)
Definition info_spawn (env : Env) (packageJson : PackageJSON) : event :=
  Spawn "npm" (info_args env packageJson) plain_options.

Definition info_line (packageJson : PackageJSON) : event :=
  Log Info [Text "npm info "; Text (name packageJson)].

Definition queried (env : Env) (packageJson : PackageJSON) (w : World)
  : World :=
  {| twoFactorState :=
       meanwhile env (clock w) npmRequestLimit (twoFactorState w);
     clock := 2 + clock w;
     trace := trace w
              ++ [Enter npmRequestLimit; info_line packageJson;
                  info_spawn env packageJson] |}.

(** Surroundings whose registry answers the info query with [out]. *)
Definition html_output : string := "<html>502 Bad Gateway</html>".

(** Surroundings in which the project cannot be read: [preferredPM] is
    rejected. *)
Definition unreadable_project : Env :=
  {| isCI := false;
     npm_config_registry := None;
     preferred_pm := fun _ _ => Rejected (Failure "EACCES");
     semver_parse := fun _ => None;
     spawn_outcome := fun _ _ _ _ => Rejected (Failure "ENOENT");
     operator_input := fun _ _ => "123456";
     meanwhile := fun _ _ s => s |}.

(** The promise [isRequired] is resolved, and the other callers leave it
    resolved. *)
Definition resolved (s : TwoFactorState) : Prop :=
  exists required, isRequired s = Resolved required.

Definition others_keep_resolved (env : Env) : Prop :=
  forall now g s, resolved s -> resolved (meanwhile env now g s).

(** The project can be read: [preferredPM] always answers. *)
Definition reads_project (env : Env) : Prop :=
  forall now cwd, exists pm, preferred_pm env now cwd = Resolved pm.

(** Every publish command is answered with an OTP error. *)
Definition always_wants_otp (env : Env) : Prop :=
  forall now tool args options,
    among "publish" args = true ->
    exists r j,
      spawn_outcome env now tool args options = Resolved r
      /\ JSON_parse (replace_non_brace_prefix (stdout r)) = Some j
      /\ otp_related j = true.

(** The publish commands among the events. *)
Definition is_publish (ev : event) : bool :=
  match ev with
  | Spawn _ args _ => among "publish" args
  | _ => false
  end.

Definition publishes (events : list event) : nat :=
  List.length (filter is_publish events).

(** A registry that answers EOTP to every publish, whatever it carries. *)
Definition registry_insisting : Env :=
  {| isCI := false;
     npm_config_registry := None;
     preferred_pm := fun _ _ => Resolved None;
     semver_parse := fun _ => None;
     spawn_outcome := fun _ _ args _ =>
       if among "publish" args then exits eotp_output
       else Rejected (Failure "ENOENT");
     operator_input := fun _ _ => "123456";
     meanwhile := fun _ _ s => s |}.

(** ** Gates at the end of a call *)

(** An event that passes no gate. *)
Definition quiet (e : event) : Prop :=
  match e with
  | Enter _ | Leave _ => False
  | _ => True
  end.

(** Events in which every gate that is entered is left again, the gate
    entered last being left first. *)
Inductive nested : list event -> Prop :=
| nested_nil : nested []
| nested_quiet e : quiet e -> nested [e]
| nested_gate g events : nested events -> nested (Enter g :: events ++ [Leave g])
| nested_app events events' :
    nested events -> nested events' -> nested (events ++ events').

(** A run of [m] adds nested events to the trace. *)
Definition brackets {A} (m : M A) : Prop :=
  forall w, exists events,
    trace (snd (m w)) = trace w ++ events /\ nested events.

(** The run of [m] from [w] keeps no slot: its events are nested, and
    each gate is left as often as it is entered. *)
Definition returns_slots {A} (m : M A) (w : World) : Prop :=
  exists events,
    trace (snd (m w)) = trace w ++ events
    /\ nested events
    /\ forall g,
         List.length (filter (enters g) events)
         = List.length (filter (leaves g) events).

(** The run of [m] from [w] ends: it returns or throws. *)
Definition ends {A} (m : M A) (w : World) : Prop :=
  fst (m w) <> Unfinished.

(** ** Values that always have a text *)

(** A value that is absent or primitive: a template literal or a
    concatenation makes a text of it and cannot throw. *)
Definition primitive (v : value) : Prop :=
  match v with
  | Some (JArr _) | Some (JObj _) => False
  | _ => True
  end.

(* ===================================================================== *)
(** * Properties *)
(* ===================================================================== *)

(** ** [trim] and [JSON.parse] on samples *)

(** [trim] strips the white space of ECMAScript at both ends, beyond
    ASCII too: here a byte order mark before, and a no-break space and
    a line feed after, a version number. *)
Example trim_version :
  trim (string_of_list_ascii
          (map ascii_of_nat [239; 187; 191; 32; 57; 46; 49; 194; 160; 10]))
  = "9.1"
  /\ trim " a b " = "a b"
  /\ trim "   " = "".
Proof. vm_compute. repeat split. Qed.

Example parse_object :
  JSON_parse (quoted " {'a': [1, -2.5e3, true, null, 'x\ny'], 'b': {}, 'a': 0.0} ")
  = Some (JObj [("a", JNum (Num 0 (-1))); ("b", JObj [])]).
Proof. vm_compute. reflexivity. Qed.

Example parse_escapes :
  JSON_parse (quoted "['\u0041\t\/']")
  = Some (JArr [JStr (String "A" (String "009" "/"))]).
Proof. vm_compute. reflexivity. Qed.

Example parse_rejects :
  JSON_parse "" = None
  /\ JSON_parse "{} x" = None
  /\ JSON_parse (quoted "{'a':1,}") = None
  /\ JSON_parse "[1,]" = None
  /\ JSON_parse "01" = None
  /\ JSON_parse (quoted "'open") = None
  /\ JSON_parse "{a:1}" = None.
Proof. vm_compute. repeat split. Qed.

Example falsy_numbers :
  truthy (JSON_parse "0") = false
  /\ truthy (JSON_parse "-0.0e5") = false
  /\ truthy (JSON_parse "2e-324") = false
  /\ truthy (JSON_parse "3e-324") = true
  /\ truthy (JSON_parse "1e400") = true.
Proof. vm_compute. repeat split. Qed.

(** ** The fuel of the parser *)

Section ParserFuel.

Import Parse.

Lemma skip_ws_length (s : list ascii) :
  List.length (skip_ws s) <= List.length s.
Proof.
  induction s as [|c s IH]; cbn; [lia|].
  destruct (is_json_space c); cbn; lia.
Qed.

Lemma after_length (word s r : list ascii) :
  after word s = Some r ->
  List.length r + List.length word = List.length s.
Proof.
  revert s. induction word as [|x word IH]; intros s; cbn.
  - intros [= ->]. lia.
  - destruct s as [|c s]; [discriminate|].
    destruct (c =? x)%char; [|discriminate].
    intros H. apply IH in H. cbn. lia.
Qed.

Lemma digits_length (s : list ascii) :
  forall acc len a l r,
    digits acc len s = (a, l, r) ->
    (Z.of_nat (List.length r) + (l - len) = Z.of_nat (List.length s))%Z
    /\ (len <= l)%Z.
Proof.
  induction s as [|c s IH]; intros acc len a l r; cbn [digits].
  - intros [= _ <- <-]. cbn. lia.
  - destruct (digit c) as [d|].
    + intros H. apply IH in H. cbn [List.length]. lia.
    + intros [= _ <- <-]. lia.
Qed.

Lemma sign_length (s : list ascii) :
  List.length (snd (sign s)) <= List.length s.
Proof.
  destruct s as [|c s]; cbn; [lia|].
  destruct (c =? "-")%char; cbn; lia.
Qed.

Lemma fraction_length (int : Z) (s : list ascii) m flen r :
  fraction int s = Some (m, flen, r) -> List.length r <= List.length s.
Proof.
  destruct s as [|c s]; cbn.
  - intros [= _ _ <-]. cbn. lia.
  - destruct (c =? ".")%char.
    + destruct (digits int 0 s) as [[m' l'] r'] eqn:E.
      destruct (l' =? 0)%Z; [discriminate|].
      intros [= _ _ <-]. apply digits_length in E. cbn. lia.
    + intros [= _ _ <-]. cbn. lia.
Qed.

Lemma exponent_length (s : list ascii) e r :
  exponent s = Some (e, r) -> List.length r <= List.length s.
Proof.
  destruct s as [|c s]; cbn.
  - intros [= _ <-]. cbn. lia.
  - destruct ((c =? "e")%char || (c =? "E")%char).
    + set (signed := match s with
                     | [] => (false, s)
                     | c' :: rest' =>
                         if (c' =? "-")%char then (true, rest')
                         else if (c' =? "+")%char then (false, rest')
                         else (false, s)
                     end).
      assert (Hs : List.length (snd signed) <= List.length s).
      { subst signed. destruct s as [|c' s']; cbn; [lia|].
        destruct (c' =? "-")%char; cbn; [lia|].
        destruct (c' =? "+")%char; cbn; lia. }
      destruct signed as [negative rest1]. cbn in Hs.
      destruct (digits 0 0 rest1) as [[e' l'] r'] eqn:E.
      destruct (l' =? 0)%Z; [discriminate|].
      intros [= _ <-]. apply digits_length in E. lia.
    + intros [= _ <-]. cbn. lia.
Qed.

Lemma parse_number_length (s : list ascii) n r :
  parse_number s = Some (n, r) -> List.length r < List.length s.
Proof.
  unfold parse_number. pose proof (sign_length s) as Hsign.
  destruct (sign s) as [negative s1]. cbn in Hsign.
  destruct (digits 0 0 s1) as [[int ilen] s2] eqn:Ed.
  apply digits_length in Ed.
  destruct (Z.eqb_spec ilen 0) as [->|Hi]; [discriminate|]. cbn [orb].
  destruct (starts_with_zero s1 && (1 <? ilen)%Z); [discriminate|].
  destruct (fraction int s2) as [[[m flen] s3]|] eqn:Ef; [|discriminate].
  apply fraction_length in Ef.
  destruct (exponent s3) as [[e s4]|] eqn:Ee; [|discriminate].
  apply exponent_length in Ee.
  intros [= _ <-]. lia.
Qed.

Lemma string_pieces_length (n : nat) :
  forall s ps r,
    List.length s <= n ->
    string_pieces s = Some (ps, r) -> List.length r < List.length s.
Proof.
  induction n as [|n IH]; intros s ps r Hn.
  - destruct s; [discriminate|cbn in Hn; lia].
  - destruct s as [|c rest]; [discriminate|]. cbn [string_pieces].
    cbn in Hn.
    destruct (c =? "034")%char; [intros [= _ <-]; cbn; lia|].
    destruct (c =? "\")%char.
    + destruct rest as [|e rest1]; [discriminate|].
      destruct (e =? "u")%char.
      * destruct rest1 as [|a [|b [|c' [|d rest2]]]]; try discriminate.
        destruct (string_pieces rest2) as [[ps' r']|] eqn:E;
          [|destruct (option_map _ _); discriminate].
        destruct (option_map _ _); [|discriminate].
        intros [= _ <-]. apply IH in E; cbn in *; lia.
      * destruct (string_pieces rest1) as [[ps' r']|] eqn:E;
          [|destruct (option_map _ _); discriminate].
        destruct (option_map _ _); [|discriminate].
        intros [= _ <-]. apply IH in E; cbn in *; lia.
    + destruct (N_of_ascii c <? 32)%N; [discriminate|].
      destruct (string_pieces rest) as [[ps' r']|] eqn:E; [|discriminate].
      cbn. intros [= _ <-]. apply IH in E; cbn in *; lia.
Qed.

Lemma parse_string_length (s : list ascii) str r :
  parse_string s = Some (str, r) -> List.length r < List.length s.
Proof.
  unfold parse_string.
  destruct (string_pieces s) as [[ps r']|] eqn:E; [|discriminate].
  intros [= _ <-]. now apply (string_pieces_length (List.length s) s ps).
Qed.

Lemma parse_atom_length (s : list ascii) v r :
  parse_atom s = Some (v, r) -> List.length r < List.length s.
Proof.
  unfold parse_atom.
  destruct (after (list_ascii_of_string "true") s) as [r1|] eqn:E1.
  { intros [= _ <-]. apply after_length in E1. cbn in E1. lia. }
  destruct (after (list_ascii_of_string "false") s) as [r2|] eqn:E2.
  { intros [= _ <-]. apply after_length in E2. cbn in E2. lia. }
  destruct (after (list_ascii_of_string "null") s) as [r3|] eqn:E3.
  { intros [= _ <-]. apply after_length in E3. cbn in E3. lia. }
  destruct (parse_number s) as [[n r4]|] eqn:E4; [|discriminate].
  intros [= _ <-]. now apply parse_number_length in E4.
Qed.

(** A successful parse takes at least one character. *)
Lemma parse_consumes (fuel : nat) :
  (forall s v r,
     parse_value fuel s = Some (v, r) -> List.length r < List.length s)
  /\ (forall s acc v r,
        parse_elements fuel s acc = Some (v, r) ->
        List.length r < List.length s)
  /\ (forall s acc v r,
        parse_members fuel s acc = Some (v, r) ->
        List.length r < List.length s).
Proof.
  induction fuel as [|fuel (IHv & IHe & IHm)].
  { repeat split; intros; discriminate. }
  split; [|split].
  - intros s v r. cbn [parse_value].
    pose proof (skip_ws_length s) as Hs.
    destruct (skip_ws s) as [|c r0]; [discriminate|]. cbn in Hs.
    destruct (c =? "{")%char.
    { pose proof (skip_ws_length r0) as Hr.
      destruct (skip_ws r0) as [|c' r']; [discriminate|]. cbn in Hr.
      destruct (c' =? "}")%char; [intros [= _ <-]; lia|].
      intros E. apply IHm in E. lia. }
    destruct (c =? "[")%char.
    { pose proof (skip_ws_length r0) as Hr.
      destruct (skip_ws r0) as [|c' r']; [discriminate|]. cbn in Hr.
      destruct (c' =? "]")%char; [intros [= _ <-]; lia|].
      intros E. apply IHe in E. lia. }
    destruct (c =? "034")%char.
    { destruct (parse_string r0) as [[str r']|] eqn:E; [|discriminate].
      intros [= _ <-]. apply parse_string_length in E. lia. }
    intros E. apply parse_atom_length in E. cbn in E. lia.
  - intros s acc v r. cbn [parse_elements].
    destruct (parse_value fuel s) as [[v' r0]|] eqn:E; [|discriminate].
    apply IHv in E. pose proof (skip_ws_length r0) as Hr.
    destruct (skip_ws r0) as [|c r']; [discriminate|]. cbn in Hr.
    destruct (c =? ",")%char; [intros E'; apply IHe in E'; lia|].
    destruct (c =? "]")%char; [|discriminate].
    intros [= _ <-]. lia.
  - intros s acc v r. cbn [parse_members].
    pose proof (skip_ws_length s) as Hs.
    destruct (skip_ws s) as [|q r0]; [discriminate|]. cbn in Hs.
    destruct (q =? "034")%char; [|discriminate].
    destruct (parse_string r0) as [[k r1]|] eqn:Ek; [|discriminate].
    apply parse_string_length in Ek.
    pose proof (skip_ws_length r1) as Hr1.
    destruct (skip_ws r1) as [|c r2]; [discriminate|]. cbn in Hr1.
    destruct (c =? ":")%char; [|discriminate].
    destruct (parse_value fuel r2) as [[v' r3]|] eqn:Ev; [|discriminate].
    apply IHv in Ev. pose proof (skip_ws_length r3) as Hr3.
    destruct (skip_ws r3) as [|c' r4]; [discriminate|]. cbn in Hr3.
    destruct (c' =? ",")%char; [intros E'; apply IHm in E'; lia|].
    destruct (c' =? "}")%char; [|discriminate].
    intros [= _ <-]. lia.
Qed.

(** Fuel beyond twice the length of the input changes nothing. *)
Lemma parse_fuel (fuel : nat) :
  (forall s more,
     2 * List.length s + 1 <= fuel ->
     parse_value (fuel + more) s = parse_value fuel s)
  /\ (forall s acc more,
        2 * List.length s + 2 <= fuel ->
        parse_elements (fuel + more) s acc = parse_elements fuel s acc)
  /\ (forall s acc more,
        2 * List.length s + 2 <= fuel ->
        parse_members (fuel + more) s acc = parse_members fuel s acc).
Proof.
  induction fuel as [|fuel (IHv & IHe & IHm)].
  { repeat split; intros; lia. }
  split; [|split].
  - intros s more Hf. cbn [Nat.add parse_value].
    pose proof (skip_ws_length s) as Hs.
    destruct (skip_ws s) as [|c r0]; [reflexivity|]. cbn in Hs.
    destruct (c =? "{")%char.
    { pose proof (skip_ws_length r0) as Hr.
      destruct (skip_ws r0) as [|c' r']; [reflexivity|].
      destruct (c' =? "}")%char; [reflexivity|]. apply IHm. lia. }
    destruct (c =? "[")%char; [|reflexivity].
    pose proof (skip_ws_length r0) as Hr.
    destruct (skip_ws r0) as [|c' r']; [reflexivity|].
    destruct (c' =? "]")%char; [reflexivity|]. apply IHe. lia.
  - intros s acc more Hf. cbn [Nat.add parse_elements].
    rewrite IHv by lia.
    destruct (parse_value fuel s) as [[v r0]|] eqn:E; [|reflexivity].
    apply (proj1 (parse_consumes fuel)) in E.
    pose proof (skip_ws_length r0) as Hr.
    destruct (skip_ws r0) as [|c r']; [reflexivity|]. cbn in Hr.
    destruct (c =? ",")%char; [|reflexivity]. apply IHe. lia.
  - intros s acc more Hf. cbn [Nat.add parse_members].
    pose proof (skip_ws_length s) as Hs.
    destruct (skip_ws s) as [|q r0]; [reflexivity|]. cbn in Hs.
    destruct (q =? "034")%char; [|reflexivity].
    destruct (parse_string r0) as [[k r1]|] eqn:Ek; [|reflexivity].
    apply parse_string_length in Ek.
    pose proof (skip_ws_length r1) as Hr1.
    destruct (skip_ws r1) as [|c r2]; [reflexivity|]. cbn in Hr1.
    destruct (c =? ":")%char; [|reflexivity].
    rewrite IHv by lia.
    destruct (parse_value fuel r2) as [[v r3]|] eqn:Ev; [|reflexivity].
    apply (proj1 (parse_consumes fuel)) in Ev.
    pose proof (skip_ws_length r3) as Hr3.
    destruct (skip_ws r3) as [|c' r4]; [reflexivity|]. cbn in Hr3.
    destruct (c' =? ",")%char; [|reflexivity]. apply IHm. lia.
Qed.

Lemma length_of_text (text : string) :
  List.length (list_ascii_of_string text) = String.length text.
Proof. induction text as [|c text IH]; cbn; [reflexivity|now rewrite IH]. Qed.

(** [JSON_parse] is the parser with any fuel at least as large as its
    own: it never answers [None] for want of fuel. *)
Lemma JSON_parse_fuel (text : string) (more : nat) :
  JSON_parse_with (2 * String.length text + 1 + more) text = JSON_parse text.
Proof.
  unfold JSON_parse, JSON_parse_with.
  rewrite (proj1 (parse_fuel _)); [reflexivity|].
  rewrite length_of_text. lia.
Qed.

End ParserFuel.

(** ** Registry resolution *)

(** C3. For every package-level registry [p] and environment value [e],
    [getCorrectRegistry] returns [p] when present, else [e] when present,
    and the npmjs registry when the value so selected is absent, empty or
    the yarnpkg registry. A package without [publishConfig], and a call
    without a package, select the environment value. The function is a
    total function to strings: it has no effect and cannot fail. *)
Theorem getCorrectRegistry_policy :
  forall (env : Env) (n : string) (p : option string),
    getCorrectRegistry env (Some (with_registry n p))
      = effective_registry p (npm_config_registry env)
    /\ getCorrectRegistry env (Some {| name := n; publishConfig := None |})
      = effective_registry None (npm_config_registry env)
    /\ getCorrectRegistry env None
      = effective_registry None (npm_config_registry env).
Proof.
  intros env n p.
  unfold getCorrectRegistry, effective_registry, with_registry, nullish,
    truthy_string, same_string, yarnpkg_registry, npmjs_registry; cbn.
  repeat split.
  - destruct p as [v|]; [|destruct (npm_config_registry env) as [v|]];
      try reflexivity; destruct (v =? ""); reflexivity.
  - destruct (npm_config_registry env) as [v|]; try reflexivity.
    destruct (v =? ""); reflexivity.
  - destruct (npm_config_registry env) as [v|]; try reflexivity.
    destruct (v =? ""); reflexivity.
Qed.

(** A package that names the yarn mirror is published to npmjs. *)
Example getCorrectRegistry_mirror (env : Env) :
  getCorrectRegistry env
    (Some (with_registry "a" (Some "https://registry.yarnpkg.com")))
  = "https://registry.npmjs.org".
Proof. reflexivity. Qed.

(** ** Tool detection *)

Lemma spawn_run (env : Env) cmd args options w :
  spawn env cmd args options w
  = (match spawn_outcome env (clock w) cmd args options with
     | Resolved r => Returned r
     | Rejected e => Thrown e
     end,
     {| twoFactorState := twoFactorState w;
        clock := S (clock w);
        trace := trace w ++ [Spawn cmd args options] |}).
Proof.
  unfold spawn, bind, emit, tick, await, ret, throw; cbn.
  destruct (spawn_outcome env (clock w) cmd args options); reflexivity.
Qed.

Lemma preferredPM_run (env : Env) cwd w :
  preferredPM env cwd w
  = (match preferred_pm env (clock w) cwd with
     | Resolved r => Returned r
     | Rejected e => Thrown e
     end,
     {| twoFactorState := twoFactorState w;
        clock := S (clock w);
        trace := trace w ++ [PreferredPM cwd] |}).
Proof.
  unfold preferredPM, bind, emit, tick, await, ret, throw; cbn.
  destruct (preferred_pm env (clock w) cwd); reflexivity.
Qed.

(** C4. Whenever [preferredPM] answers, [getPublishTool] returns: pnpm
    with [shouldAddNoGitChecks = (major >= 5)] when pnpm is preferred
    and its version probe gives a version, pnpm with [false] when the
    spawn or the parse fails; yarn with [berry = (major >= 2)], or
    [false], in the same way; npm in every other case, also when no
    package manager is preferred. No outcome of the probe makes it
    throw. *)
Theorem getPublishTool_detects :
  forall (env : Env) (cwd : string) (w : World) (pm : option PM),
    preferred_pm env (clock w) cwd = Resolved pm ->
    fst (getPublishTool env cwd w)
    = Returned
        (detected_tool pm
           (version_probe env (S (clock w)) "pnpm" cwd)
           (version_probe env (S (clock w)) "yarn" cwd)).
Proof.
  intros env cwd w pm Hpm.
  unfold getPublishTool, bind. rewrite preferredPM_run, Hpm.
  unfold detected_tool, version_probe, pm_is, major_at_least.
  destruct pm as [p|]; [|reflexivity].
  destruct (pm_name p =? "pnpm").
  - unfold try_catch, bind. rewrite spawn_run. cbn [clock].
    destruct (spawn_outcome env (S (clock w)) "pnpm" _ _) as [r|e];
      [|reflexivity].
    cbn. destruct (semver_parse env (trim (stdout r))); reflexivity.
  - destruct (pm_name p =? "yarn"); [|reflexivity].
    unfold try_catch, bind. rewrite spawn_run. cbn [clock].
    destruct (spawn_outcome env (S (clock w)) "yarn" _ _) as [r|e];
      [|reflexivity].
    cbn. destruct (semver_parse env (trim (stdout r))); reflexivity.
Qed.

Lemma getPublishTool_detects_witness :
  fst (getPublishTool (surroundings true (Some "pnpm") registry_with_2fa)
         "packages/a" fresh_world)
  = Returned (pnpm true).
Proof.
  apply (eq_trans
           (getPublishTool_detects
              (surroundings true (Some "pnpm") registry_with_2fa)
              "packages/a" fresh_world
              (Some {| pm_name := "pnpm"; pm_version := "" |})
              ltac:(vm_compute; reflexivity)));
    vm_compute; reflexivity.
Defined.

(** ** Running [internalPublish] *)

Lemma internalPublish_unfold (env : Env) fuel pkgName opts w stdout w1 :
  spawnPublish env opts w = (Returned stdout, w1) ->
  internalPublish env (S fuel) pkgName opts w
  = handleOutput env (internalPublish env fuel pkgName opts) pkgName stdout w1.
Proof.
  intros H. cbn [internalPublish]. unfold bind at 1. now rewrite H.
Qed.

Lemma handleOutput_parsed (env : Env) again pkgName stdout j w :
  JSON_parse (replace_non_brace_prefix stdout) = Some j ->
  handleOutput env again pkgName stdout w = actOn env again pkgName j w.
Proof.
  intros H. unfold handleOutput, jsonParse, bind. now rewrite H.
Qed.

Lemma handleOutput_unparsed (env : Env) again pkgName stdout w :
  JSON_parse (replace_non_brace_prefix stdout) = None ->
  handleOutput env again pkgName stdout w
  = (Thrown (SyntaxError (replace_non_brace_prefix stdout)),
     and_then w [Log ConsoleError
                   [Text "error parsing json:";
                    Text (replace_non_brace_prefix stdout)]]).
Proof.
  intros H. unfold handleOutput, jsonParse, bind. now rewrite H.
Qed.

(** A parsed output with an error code is an object whose [error] is an
    object. *)
Lemma error_code_inv (j : json) (c : json) :
  error_code j = Some c ->
  exists fields efields,
    j = JObj fields
    /\ lookup "error" fields = Some (JObj efields)
    /\ lookup "code" efields = Some c.
Proof.
  unfold error_code, field.
  destruct j as [| | | | |fields]; try discriminate.
  destruct (lookup "error" fields) as [[| | | | |efields]|] eqn:E;
    try discriminate.
  intros H. now exists fields, efields.
Qed.

Lemma strict_eq_string_inv (v : value) (s : string) :
  strict_eq_string v s = true -> v = Some (JStr s).
Proof.
  destruct v as [[| | | s' | |]|]; cbn; try discriminate.
  intros H. apply String.eqb_eq in H. now subst.
Qed.

(** What [actOn] does with an object whose [error] is truthy. *)
Lemma actOn_error (env : Env) again pkgName fields e w :
  lookup "error" fields = Some e ->
  truthy_json e = true ->
  actOn env again pkgName (JObj fields) w
  = (otp <- otp_error_test (Some e) ;;
     if otp && negb (isCI env) then
       s <- read ;;
       (match token s with
        | Some _ => set_token None
        | None => ret tt
        end) ;;
       set_isRequired (Resolved true) ;;
       again
     else
       emit (failure_line pkgName (JObj fields)) ;;
       ret {| published := false |}) w.
Proof.
  intros H Ht. unfold actOn, failure_line, log, get, bind at 1. cbn.
  rewrite H. cbn. rewrite Ht. reflexivity.
Qed.

Lemma actOn_no_error (env : Env) again pkgName fields w :
  truthy (lookup "error" fields) = false ->
  actOn env again pkgName (JObj fields) w = (Returned {| published := true |}, w).
Proof.
  intros H. unfold actOn, get, bind. cbn. rewrite H. reflexivity.
Qed.

Lemma otp_related_test (j : json) :
  otp_related j = true ->
  exists fields efields,
    j = JObj fields
    /\ lookup "error" fields = Some (JObj efields)
    /\ forall w, otp_error_test (Some (JObj efields)) w = (Returned true, w).
Proof.
  unfold otp_related. intros H.
  apply orb_true_iff in H. destruct H as [H|H].
  - apply strict_eq_string_inv in H.
    destruct (error_code_inv _ _ H) as (fields & efields & -> & He & Hc).
    exists fields, efields. repeat split; trivial.
    intros w. unfold otp_error_test. cbn. now rewrite Hc.
  - apply andb_true_iff in H. destruct H as [H Hd].
    apply strict_eq_string_inv in H.
    destruct (error_code_inv _ _ H) as (fields & efields & -> & He & Hc).
    exists fields, efields. repeat split; trivial.
    intros w. unfold otp_error_test. cbn. rewrite Hc. cbn.
    unfold error_detail in Hd. cbn in Hd. rewrite He in Hd. cbn in Hd.
    destruct (lookup "detail" efields) as [[| | | d | |]|]; try discriminate.
    cbn. unfold otp_flag_text. now rewrite Hd.
Qed.

(** C1. Outside CI, when the output of the tool parses to an error whose
    code is "EOTP", or "E401" with a detail text containing
    "--otp=<code>", [internalPublish] does not return from this attempt.
    The handling of that output logs nothing and does one thing only,
    whatever the call of line 230 is: it makes that call on the state
    with [token = null] and [isRequired] resolved to [true]. So
    [internalPublish] is [internalPublish] again, for the same package
    and options, from that state; and the next attempt starts as the
    first did, with tool detection and a new publish command, whose
    output is handled in the same way. *)
Theorem internalPublish_otp_retry :
  forall (env : Env) (fuel : nat) (pkgName : string) (opts : PublishOptions)
         (w w1 : World) (stdout : string) (j : json),
    isCI env = false ->
    spawnPublish env opts w = (Returned stdout, w1) ->
    JSON_parse (replace_non_brace_prefix stdout) = Some j ->
    otp_related j = true ->
    (forall again : M PublishResult,
       handleOutput env again pkgName stdout w1
       = again (with_state {| token := None; isRequired := Resolved true |}
                  w1))
    /\ internalPublish env (S fuel) pkgName opts w
       = internalPublish env fuel pkgName opts
           (with_state {| token := None; isRequired := Resolved true |} w1)
    /\ internalPublish env (S (S fuel)) pkgName opts w
       = (stdout' <- spawnPublish env opts ;;
          handleOutput env (internalPublish env fuel pkgName opts) pkgName
            stdout')
           (with_state {| token := None; isRequired := Resolved true |} w1).
Proof.
  intros env fuel pkgName opts w w1 stdout j Hci Hrun Hparse Hotp.
  assert (Hstep : forall again : M PublishResult,
    handleOutput env again pkgName stdout w1
    = again (with_state {| token := None; isRequired := Resolved true |} w1)).
  { intros again.
    rewrite (handleOutput_parsed _ _ _ _ _ _ Hparse).
    destruct (otp_related_test _ Hotp) as (fields & efields & -> & He & Htest).
    rewrite (actOn_error _ _ _ _ _ _ He eq_refl).
    unfold bind at 1. rewrite Htest, Hci. cbn.
    unfold bind, read, set_token, set_isRequired, write, ret, with_state.
    cbn. destruct (token (twoFactorState w1)) eqn:Et; cbn;
      rewrite ?Et; reflexivity. }
  split; [exact Hstep|]. split.
  - rewrite (internalPublish_unfold _ _ _ _ _ _ _ Hrun). apply Hstep.
  - rewrite (internalPublish_unfold _ _ _ _ _ _ _ Hrun), Hstep. reflexivity.
Qed.

Lemma internalPublish_otp_retry_witness :
  (forall again : M PublishResult,
     handleOutput (surroundings false None registry_with_2fa) again "a"
       eotp_output
       (snd (spawnPublish (surroundings false None registry_with_2fa)
               sample_opts fresh_world))
     = again (with_state {| token := None; isRequired := Resolved true |}
                (snd (spawnPublish (surroundings false None registry_with_2fa)
                        sample_opts fresh_world))))
  /\ internalPublish (surroundings false None registry_with_2fa) 2 "a"
       sample_opts fresh_world
     = internalPublish (surroundings false None registry_with_2fa) 1 "a"
         sample_opts
         (with_state {| token := None; isRequired := Resolved true |}
            (snd (spawnPublish (surroundings false None registry_with_2fa)
                    sample_opts fresh_world)))
  /\ internalPublish (surroundings false None registry_with_2fa) 3 "a"
       sample_opts fresh_world
     = (stdout' <- spawnPublish (surroundings false None registry_with_2fa)
                     sample_opts ;;
        handleOutput (surroundings false None registry_with_2fa)
          (internalPublish (surroundings false None registry_with_2fa) 1 "a"
             sample_opts)
          "a" stdout')
         (with_state {| token := None; isRequired := Resolved true |}
            (snd (spawnPublish (surroundings false None registry_with_2fa)
                    sample_opts fresh_world))).
Proof.
  apply (internalPublish_otp_retry
           (surroundings false None registry_with_2fa) 1 "a" sample_opts
           fresh_world
           (snd (spawnPublish (surroundings false None registry_with_2fa)
                   sample_opts fresh_world))
           eotp_output eotp_json);
    vm_compute; reflexivity.
Defined.

(** In CI the same outputs end the call: the error is logged and the
    result is [{published: false}]. *)
Lemma internalPublish_otp_in_CI (env : Env) fuel pkgName opts w w1 stdout j :
  isCI env = true ->
  spawnPublish env opts w = (Returned stdout, w1) ->
  JSON_parse (replace_non_brace_prefix stdout) = Some j ->
  otp_related j = true ->
  internalPublish env (S fuel) pkgName opts w
  = (Returned {| published := false |},
     and_then w1 [failure_line pkgName j]).
Proof.
  intros Hci Hrun Hparse Hotp.
  rewrite (internalPublish_unfold _ _ _ _ _ _ _ Hrun).
  rewrite (handleOutput_parsed _ _ _ _ _ _ Hparse).
  destruct (otp_related_test _ Hotp) as (fields & efields & -> & He & Htest).
  rewrite (actOn_error _ _ _ _ _ _ He eq_refl).
  unfold bind at 1. rewrite Htest, Hci. reflexivity.
Qed.

(** ** Errors that end the call *)

(** X2. A parsed output without a truthy [error] ends the call with
    [{published: true}], in the world that the spawn of the publish
    command left: handling such an output logs nothing and changes
    nothing. *)
Theorem internalPublish_success :
  forall (env : Env) (fuel : nat) (pkgName : string) (opts : PublishOptions)
         (w w1 : World) (stdout : string) (fields : list (string * json)),
    spawnPublish env opts w = (Returned stdout, w1) ->
    JSON_parse (replace_non_brace_prefix stdout) = Some (JObj fields) ->
    truthy (lookup "error" fields) = false ->
    internalPublish env (S fuel) pkgName opts w
    = (Returned {| published := true |}, w1).
Proof.
  intros env fuel pkgName opts w w1 stdout fields Hrun Hparse He.
  rewrite (internalPublish_unfold _ _ _ _ _ _ _ Hrun).
  rewrite (handleOutput_parsed _ _ _ _ _ _ Hparse).
  now apply actOn_no_error.
Qed.

Lemma internalPublish_success_witness :
  internalPublish (surroundings false None registry_with_2fa) 1 "a"
    sample_opts world_requiring_otp
  = (Returned {| published := true |},
     snd (spawnPublish (surroundings false None registry_with_2fa)
            sample_opts world_requiring_otp)).
Proof.
  apply (internalPublish_success
           (surroundings false None registry_with_2fa) 0 "a" sample_opts
           world_requiring_otp
           (snd (spawnPublish (surroundings false None registry_with_2fa)
                   sample_opts world_requiring_otp))
           hooked_output [("published", JBool true)]);
    vm_compute; reflexivity.
Defined.

(** X1. The errors after which [internalPublish] gives up, in CI or
    not: the error is truthy, its code is not "EOTP", and where the code
    is "E401" the detail is a text without the flag. With a code and a
    detail that are absent or primitive (so that the failure line can
    be written), the error is logged and the result is
    [{published: false}]. *)
Theorem internalPublish_terminal_failure :
  forall (env : Env) (fuel : nat) (pkgName : string) (opts : PublishOptions)
         (w w1 : World) (stdout : string) (fields : list (string * json))
         (e : json),
    spawnPublish env opts w = (Returned stdout, w1) ->
    JSON_parse (replace_non_brace_prefix stdout) = Some (JObj fields) ->
    lookup "error" fields = Some e ->
    truthy_json e = true ->
    primitive (field (Some e) "code") ->
    primitive (field (Some e) "detail") ->
    strict_eq_string (field (Some e) "code") "EOTP" = false ->
    (strict_eq_string (field (Some e) "code") "E401" = true ->
     exists d, field (Some e) "detail" = Some (JStr d)
               /\ includes "--otp=<code>" d = false) ->
    internalPublish env (S fuel) pkgName opts w
    = (Returned {| published := false |},
       and_then w1 [failure_line pkgName (JObj fields)]).
Proof.
  intros env fuel pkgName opts w w1 stdout fields e
    Hrun Hparse He Ht _ _ Hotp H401.
  rewrite (internalPublish_unfold _ _ _ _ _ _ _ Hrun).
  rewrite (handleOutput_parsed _ _ _ _ _ _ Hparse).
  rewrite (actOn_error _ _ _ _ _ _ He Ht).
  unfold bind at 1, otp_error_test. rewrite Hotp.
  destruct (strict_eq_string (field (Some e) "code") "E401").
  - destruct (H401 eq_refl) as (d & -> & Hd). cbn.
    unfold otp_flag_text. rewrite Hd. reflexivity.
  - reflexivity.
Qed.

Lemma internalPublish_terminal_failure_witness :
  internalPublish
    (surroundings false None (registry_saying server_error_output))
    1 "a" sample_opts fresh_world
  = (Returned {| published := false |},
     and_then
       (snd (spawnPublish
               (surroundings false None (registry_saying server_error_output))
               sample_opts fresh_world))
       [failure_line "a" (JObj server_error_fields)]).
Proof.
  apply (internalPublish_terminal_failure
           (surroundings false None (registry_saying server_error_output))
           0 "a" sample_opts fresh_world
           (snd (spawnPublish
                   (surroundings false None
                      (registry_saying server_error_output))
                   sample_opts fresh_world))
           server_error_output server_error_fields
           (JObj [("code", JStr "E500");
                  ("summary", JStr "Internal Server Error")]));
    try (vm_compute; reflexivity); try exact I.
  intros H. vm_compute in H. discriminate H.
Defined.

(** C2, where the code departs from it. An output whose error code is
    "E401" and whose error has no detail is not an OTP error, and the
    claim has [internalPublish] log it and return [{published: false}].
    The code reads [json.error.detail.includes] at line 221 without the
    guard that line 235 has, and throws a [TypeError]; nothing is
    logged. *)
Theorem internalPublish_E401_without_detail_throws :
  forall (env : Env) (fuel : nat) (pkgName : string) (opts : PublishOptions)
         (w w1 : World) (stdout : string) (j : json),
    spawnPublish env opts w = (Returned stdout, w1) ->
    JSON_parse (replace_non_brace_prefix stdout) = Some j ->
    error_code j = Some (JStr "E401") ->
    error_detail j = None ->
    internalPublish env (S fuel) pkgName opts w = (Thrown TypeError, w1).
Proof.
  intros env fuel pkgName opts w w1 stdout j Hrun Hparse Hcode Hdetail.
  rewrite (internalPublish_unfold _ _ _ _ _ _ _ Hrun).
  rewrite (handleOutput_parsed _ _ _ _ _ _ Hparse).
  destruct (error_code_inv _ _ Hcode) as (fields & efields & -> & He & Hc).
  rewrite (actOn_error _ _ _ _ _ _ He eq_refl).
  unfold error_detail in Hdetail. cbn in Hdetail. rewrite He in Hdetail.
  cbn in Hdetail.
  unfold bind at 1, otp_error_test. cbn. rewrite Hc, Hdetail. reflexivity.
Qed.

Lemma internalPublish_E401_without_detail_throws_witness :
  internalPublish (surroundings false None (registry_saying unauthorized_output))
    1 "a" sample_opts fresh_world
  = (Thrown TypeError,
     snd (spawnPublish
            (surroundings false None (registry_saying unauthorized_output))
            sample_opts fresh_world)).
Proof.
  apply (internalPublish_E401_without_detail_throws
           (surroundings false None (registry_saying unauthorized_output))
           0 "a" sample_opts fresh_world
           (snd (spawnPublish
                   (surroundings false None
                      (registry_saying unauthorized_output))
                   sample_opts fresh_world))
           unauthorized_output unauthorized_json);
    vm_compute; reflexivity.
Defined.

(** ** Events and state of a run, compositionally *)

Lemma bind_ret {A B} (a : A) (k : A -> M B) : bind (ret a) k = k a.
Proof. reflexivity. Qed.

Create HintDb run discriminated.

Section Traces.

Context {A B : Type} (P : event -> Prop).

Lemma traces_ret (a : A) : traces P (ret a).
Proof. intros w. exists []. cbn. now rewrite app_nil_r. Qed.

Lemma traces_throw (e : exn) : traces P (@throw A e).
Proof. intros w. exists []. cbn. now rewrite app_nil_r. Qed.

Lemma traces_unfinished : traces P (@unfinished A).
Proof. intros w. exists []. cbn. now rewrite app_nil_r. Qed.

Lemma traces_bind (m : M A) (k : A -> M B) :
  traces P m -> (forall a, traces P (k a)) -> traces P (bind m k).
Proof.
  intros Hm Hk w. unfold bind.
  destruct (Hm w) as (ev1 & E1 & F1).
  destruct (m w) as [[a|e|] w1]; cbn in E1.
  - destruct (Hk a w1) as (ev2 & E2 & F2).
    exists (ev1 ++ ev2). rewrite E2, E1, app_assoc. split; trivial.
    now apply Forall_app.
  - now exists ev1.
  - now exists ev1.
Qed.

Lemma traces_try_catch (body : M A) (handler : exn -> M A) :
  traces P body -> (forall e, traces P (handler e)) ->
  traces P (try_catch body handler).
Proof.
  intros Hm Hk w. unfold try_catch.
  destruct (Hm w) as (ev1 & E1 & F1).
  destruct (body w) as [[a|e|] w1]; cbn in E1.
  - now exists ev1.
  - destruct (Hk e w1) as (ev2 & E2 & F2).
    exists (ev1 ++ ev2). rewrite E2, E1, app_assoc. split; trivial.
    now apply Forall_app.
  - now exists ev1.
Qed.

Lemma traces_await (p : settled A) : traces P (await p).
Proof. destruct p; [apply traces_ret | apply traces_throw]. Qed.

Lemma traces_or_type_error (r : option A) : traces P (or_type_error r).
Proof. destruct r; [apply traces_ret | apply traces_throw]. Qed.

Lemma stateless_ret (a : A) : stateless (ret a).
Proof. now intros w. Qed.

Lemma stateless_throw (e : exn) : stateless (@throw A e).
Proof. now intros w. Qed.

Lemma stateless_unfinished : stateless (@unfinished A).
Proof. now intros w. Qed.

Lemma stateless_bind (m : M A) (k : A -> M B) :
  stateless m -> (forall a, stateless (k a)) -> stateless (bind m k).
Proof.
  intros Hm Hk w. unfold bind. specialize (Hm w).
  destruct (m w) as [[a|e|] w1]; cbn in Hm; trivial.
  now rewrite Hk.
Qed.

Lemma stateless_try_catch (body : M A) (handler : exn -> M A) :
  stateless body -> (forall e, stateless (handler e)) ->
  stateless (try_catch body handler).
Proof.
  intros Hm Hk w. unfold try_catch. specialize (Hm w).
  destruct (body w) as [[a|e|] w1]; cbn in Hm; trivial.
  now rewrite Hk.
Qed.

Lemma stateless_await (p : settled A) : stateless (await p).
Proof. destruct p; [apply stateless_ret | apply stateless_throw]. Qed.

Lemma stateless_or_type_error (r : option A) : stateless (or_type_error r).
Proof. destruct r; [apply stateless_ret | apply stateless_throw]. Qed.

End Traces.

Lemma traces_emit (P : event -> Prop) (e : event) : P e -> traces P (emit e).
Proof. intros H w. exists [e]. cbn. split; trivial. now constructor. Qed.

Lemma traces_tick (P : event -> Prop) : traces P tick.
Proof. intros w. exists []. cbn. now rewrite app_nil_r. Qed.

Lemma traces_read (P : event -> Prop) : traces P read.
Proof. intros w. exists []. cbn. now rewrite app_nil_r. Qed.

Lemma traces_write (P : event -> Prop) s : traces P (write s).
Proof. intros w. exists []. cbn. now rewrite app_nil_r. Qed.

Lemma stateless_emit (e : event) : stateless (emit e).
Proof. now intros w. Qed.

Lemma stateless_tick : stateless tick.
Proof. now intros w. Qed.

Lemma stateless_read : stateless read.
Proof. now intros w. Qed.

#[export] Hint Resolve traces_ret traces_throw traces_unfinished traces_await
  traces_or_type_error traces_tick traces_read traces_write
  stateless_ret stateless_throw stateless_unfinished stateless_await
  stateless_or_type_error stateless_emit stateless_tick stateless_read : run.

(** One step through a computation: its binds, handlers and branches. *)
Ltac run_step :=
  match goal with
  | |- traces _ (bind _ _) => apply traces_bind; [|intros ?]
  | |- stateless (bind _ _) => apply stateless_bind; [|intros ?]
  | |- traces _ (try_catch _ _) => apply traces_try_catch; [|intros ?]
  | |- stateless (try_catch _ _) => apply stateless_try_catch; [|intros ?]
  | |- traces _ (log _ _) => apply traces_emit
  | |- traces _ (emit _) => apply traces_emit
  | |- stateless (log _ _) => apply stateless_emit
  | |- context [if ?b then _ else _] => destruct b
  | |- context [match ?x with Some _ => _ | None => _ end] => destruct x
  end.

Ltac run_auto := repeat (auto with run; run_step); auto with run.

Section TracesOfCalls.

Variable env : Env.
Variable P : event -> Prop.

Lemma traces_spawn cmd args options :
  P (Spawn cmd args options) -> traces P (spawn env cmd args options).
Proof. intros H. unfold spawn. run_auto. Qed.

Lemma stateless_spawn cmd args options :
  stateless (spawn env cmd args options).
Proof. unfold spawn. run_auto. Qed.

Lemma traces_preferredPM cwd :
  P (PreferredPM cwd) -> traces P (preferredPM env cwd).
Proof. intros H. unfold preferredPM. run_auto. Qed.

Lemma stateless_preferredPM cwd : stateless (preferredPM env cwd).
Proof. unfold preferredPM. run_auto. Qed.

Lemma traces_getPublishTool cwd :
  P (PreferredPM cwd) ->
  (forall cmd options, P (Spawn cmd ["--version"] options)) ->
  traces P (getPublishTool env cwd).
Proof.
  intros H1 H2. unfold getPublishTool.
  apply traces_bind; [now apply traces_preferredPM|intros pm].
  destruct (pm_is pm "pnpm"); [|destruct (pm_is pm "yarn")]; run_auto;
    now apply traces_spawn.
Qed.

Lemma stateless_getPublishTool cwd : stateless (getPublishTool env cwd).
Proof.
  unfold getPublishTool.
  apply stateless_bind; [apply stateless_preferredPM|intros pm].
  destruct (pm_is pm "pnpm"); [|destruct (pm_is pm "yarn")]; run_auto;
    apply stateless_spawn.
Qed.

Lemma traces_jsonParse input :
  (forall line, P (Log ConsoleError line)) -> traces P (jsonParse input).
Proof. intros H. unfold jsonParse. run_auto. Qed.

Lemma stateless_jsonParse input : stateless (jsonParse input).
Proof. unfold jsonParse. run_auto. Qed.

Lemma traces_otp_error_test error : traces P (otp_error_test error).
Proof. unfold otp_error_test. run_auto. Qed.

Lemma stateless_otp_error_test error : stateless (otp_error_test error).
Proof. unfold otp_error_test. run_auto. Qed.

End TracesOfCalls.

(** ** Publishing in CI *)

Section InCI.

Variable env : Env.
Hypothesis in_CI : isCI env = true.
Variable opts : PublishOptions.

Lemma asks_no_otp_probe cmd options :
  asks_no_otp opts (Spawn cmd ["--version"] options).
Proof. now left. Qed.

Lemma traces_spawnPublish_in_CI :
  traces (asks_no_otp opts) (spawnPublish env opts).
Proof.
  unfold spawnPublish. rewrite in_CI. cbn [negb].
  apply traces_bind.
  { apply traces_getPublishTool; [exact I|apply asks_no_otp_probe]. }
  intros tool. run_step; [run_auto|]. run_step; [run_auto|].
  rewrite andb_false_r, bind_ret. run_step; [|run_auto].
  apply traces_spawn. right. now exists tool.
Qed.

Lemma stateless_spawnPublish_in_CI : stateless (spawnPublish env opts).
Proof.
  unfold spawnPublish. rewrite in_CI. cbn [negb].
  apply stateless_bind; [apply stateless_getPublishTool|].
  intros tool. run_step; [run_auto|]. run_step; [run_auto|].
  rewrite andb_false_r, bind_ret. run_step; [|run_auto].
  apply stateless_spawn.
Qed.

Lemma traces_actOn_in_CI again pkgName j :
  traces (asks_no_otp opts) (actOn env again pkgName j).
Proof.
  unfold actOn. rewrite in_CI. cbn [negb].
  run_step; [run_auto|].
  destruct (negb (truthy a)); [run_auto|].
  run_step; [apply traces_otp_error_test|].
  rewrite andb_false_r. run_step; [|run_auto].
  apply traces_emit. exact I.
Qed.

Lemma stateless_actOn_in_CI again pkgName j :
  stateless (actOn env again pkgName j).
Proof.
  unfold actOn. rewrite in_CI. cbn [negb].
  run_step; [run_auto|].
  destruct (negb (truthy a)); [run_auto|].
  run_step; [apply stateless_otp_error_test|].
  rewrite andb_false_r. run_auto.
Qed.

Lemma traces_internalPublish_in_CI fuel pkgName :
  traces (asks_no_otp opts) (internalPublish env fuel pkgName opts).
Proof.
  destruct fuel as [|fuel]; cbn [internalPublish]; [apply traces_unfinished|].
  apply traces_bind; [apply traces_spawnPublish_in_CI|intros stdout].
  unfold handleOutput.
  apply traces_bind; [apply traces_jsonParse; now intros|intros j].
  apply traces_actOn_in_CI.
Qed.

Lemma stateless_internalPublish_in_CI fuel pkgName :
  stateless (internalPublish env fuel pkgName opts).
Proof.
  destruct fuel as [|fuel]; cbn [internalPublish];
    [apply stateless_unfinished|].
  apply stateless_bind; [apply stateless_spawnPublish_in_CI|intros stdout].
  unfold handleOutput.
  apply stateless_bind; [apply stateless_jsonParse|intros j].
  apply stateless_actOn_in_CI.
Qed.

End InCI.

(** C7. In CI, a call of [internalPublish] never reaches the prompt: it
    asks the operator nothing and does not use the prompt gate (so
    [getOtpCode] is not called, whatever the two-factor state says), the
    publish it spawns has the arguments built without [--otp], and the
    two-factor state is left as it was. When the output is then an OTP
    error ("EOTP", or "E401" with the flag in its detail), the call logs
    it and returns [{published: false}]; it does not try again. *)
Theorem internalPublish_in_CI_fails_fast :
  forall (env : Env) (fuel : nat) (pkgName : string) (opts : PublishOptions)
         (w : World),
    isCI env = true ->
    (twoFactorState (snd (internalPublish env (S fuel) pkgName opts w))
       = twoFactorState w
     /\ exists events,
          trace (snd (internalPublish env (S fuel) pkgName opts w))
            = trace w ++ events
          /\ Forall (asks_no_otp opts) events)
    /\ forall (stdout : string) (w1 : World) (j : json),
         spawnPublish env opts w = (Returned stdout, w1) ->
         JSON_parse (replace_non_brace_prefix stdout) = Some j ->
         otp_related j = true ->
         internalPublish env (S fuel) pkgName opts w
         = (Returned {| published := false |},
            and_then w1 [failure_line pkgName j]).
Proof.
  intros env fuel pkgName opts w Hci. split; [split|].
  - apply stateless_internalPublish_in_CI, Hci.
  - apply traces_internalPublish_in_CI, Hci.
  - intros stdout w1 j. now apply internalPublish_otp_in_CI.
Qed.

Lemma internalPublish_in_CI_fails_fast_witness :
  internalPublish (surroundings true (Some "pnpm") registry_with_2fa) 1 "a"
    sample_opts world_requiring_otp
  = (Returned {| published := false |},
     and_then
       (snd (spawnPublish (surroundings true (Some "pnpm") registry_with_2fa)
               sample_opts world_requiring_otp))
       [failure_line "a" eotp_json]).
Proof.
  apply (proj2 (internalPublish_in_CI_fails_fast
                  (surroundings true (Some "pnpm") registry_with_2fa)
                  0 "a" sample_opts world_requiring_otp eq_refl)
           eotp_output
           (snd (spawnPublish
                   (surroundings true (Some "pnpm") registry_with_2fa)
                   sample_opts world_requiring_otp))
           eotp_json);
    vm_compute; reflexivity.
Defined.

(** ** Parsing the output *)

Lemma replace_non_brace_prefix_splits (s : string) :
  exists noise,
    s = String.append noise (replace_non_brace_prefix s)
    /\ no_brace noise
    /\ (replace_non_brace_prefix s = ""
        \/ exists rest, replace_non_brace_prefix s = String "{" rest).
Proof.
  induction s as [|c s IH].
  - exists "". cbn. repeat split; auto. intros [].
  - cbn [replace_non_brace_prefix].
    destruct (Ascii.eqb_spec c "{") as [->|Hc].
    + exists "". repeat split; eauto. intros [].
    + destruct IH as (noise & E & Hn & Hs).
      exists (String c noise). cbn. rewrite <- E. repeat split; trivial.
      intros [H|H]; [now apply Hc|now apply Hn].
Qed.

Lemma replace_non_brace_prefix_all (s : string) :
  no_brace s -> replace_non_brace_prefix s = "".
Proof.
  unfold no_brace. induction s as [|c s IH]; cbn; trivial.
  intros H. destruct (Ascii.eqb_spec c "{") as [->|Hc].
  - exfalso. apply H. now left.
  - apply IH. intros Hin. apply H. now right.
Qed.

(** C5. [internalPublish] drops every character of the tool's output
    that precedes the first "{" and gives the rest to [JSON.parse]; what
    it does next is decided by the parsed value. When the rest is not
    JSON the [SyntaxError] reaches the caller (after a line on the
    console): so for an output without any "{", whose rest is empty. The
    output "prepublish hook ran\n{"published":true}" parses to the
    object [{published: true}] and the call returns
    [{published: true}]. *)
Theorem internalPublish_parses_after_prefix :
  forall (env : Env) (fuel : nat) (pkgName : string) (opts : PublishOptions)
         (w w1 : World) (stdout : string),
    spawnPublish env opts w = (Returned stdout, w1) ->
    let rest := replace_non_brace_prefix stdout in
    (exists noise,
       stdout = String.append noise rest
       /\ no_brace noise
       /\ (rest = "" \/ exists tail, rest = String "{" tail))
    /\ internalPublish env (S fuel) pkgName opts w
       = match JSON_parse rest with
         | Some j =>
             actOn env (internalPublish env fuel pkgName opts) pkgName j w1
         | None =>
             (Thrown (SyntaxError rest),
              and_then w1
                [Log ConsoleError [Text "error parsing json:"; Text rest]])
         end
    /\ (no_brace stdout ->
        fst (internalPublish env (S fuel) pkgName opts w)
        = Thrown (SyntaxError ""))
    /\ (stdout = hooked_output ->
        JSON_parse rest = Some (JObj [("published", JBool true)])
        /\ internalPublish env (S fuel) pkgName opts w
           = (Returned {| published := true |}, w1)).
Proof.
  intros env fuel pkgName opts w w1 stdout Hrun rest.
  assert (Hstep :
    internalPublish env (S fuel) pkgName opts w
    = match JSON_parse rest with
      | Some j =>
          actOn env (internalPublish env fuel pkgName opts) pkgName j w1
      | None =>
          (Thrown (SyntaxError rest),
           and_then w1
             [Log ConsoleError [Text "error parsing json:"; Text rest]])
      end).
  { rewrite (internalPublish_unfold _ _ _ _ _ _ _ Hrun).
    destruct (JSON_parse rest) as [j|] eqn:E.
    - now apply handleOutput_parsed.
    - now apply handleOutput_unparsed. }
  split; [apply replace_non_brace_prefix_splits|].
  split; [exact Hstep|]. split.
  - intros Hnone. rewrite Hstep. subst rest.
    rewrite (replace_non_brace_prefix_all _ Hnone). reflexivity.
  - intros ->. rewrite Hstep. subst rest. split; reflexivity.
Qed.

Lemma internalPublish_parses_after_prefix_witness :
  internalPublish (surroundings false None registry_with_2fa) 1 "a"
    sample_opts world_requiring_otp
  = (Returned {| published := true |},
     snd (spawnPublish (surroundings false None registry_with_2fa)
            sample_opts world_requiring_otp)).
Proof.
  apply (proj2 (proj2 (proj2 (proj2
           (internalPublish_parses_after_prefix
              (surroundings false None registry_with_2fa) 0 "a" sample_opts
              world_requiring_otp
              (snd (spawnPublish (surroundings false None registry_with_2fa)
                      sample_opts world_requiring_otp))
              hooked_output
              ltac:(vm_compute; reflexivity))))
           eq_refl)).
Defined.

(** ** Gates, as one caller sees them *)

Lemma limit_run {A} (env : Env) (g : gate) (fn : M A) (w : World) :
  limit env g fn w
  = (fst (fn (admitted env g w)),
     and_then (snd (fn (admitted env g w))) [Leave g]).
Proof.
  unfold limit, admitted, and_then. cbn.
  destruct (fn _) as [r w2]. reflexivity.
Qed.

(** ** The info query *)

Lemma getPackageInfo_run (env : Env) packageJson w :
  getPackageInfo env packageJson w
  = let w1 := and_then (admitted env npmRequestLimit w)
                [Log Info [Text "npm info "; Text (name packageJson)]] in
    let w2 := {| twoFactorState := twoFactorState w1;
                 clock := S (clock w1);
                 trace := trace w1
                          ++ [Spawn "npm" (info_args env packageJson)
                                plain_options] |} in
    match spawn_outcome env (S (clock w)) "npm" (info_args env packageJson)
            plain_options with
    | Resolved r =>
        if stdout r =? "" then (Returned not_found, and_then w2 [Leave npmRequestLimit])
        else (fst (jsonParse (stdout r) w2),
              and_then (snd (jsonParse (stdout r) w2)) [Leave npmRequestLimit])
    | Rejected e => (Thrown e, and_then w2 [Leave npmRequestLimit])
    end.
Proof.
  unfold getPackageInfo. rewrite limit_run.
  unfold bind at 1 2, log, emit. cbn [fst snd].
  unfold bind at 1 2. rewrite spawn_run. cbn.
  fold (info_args env packageJson). fold plain_options.
  destruct (spawn_outcome env (S (clock w)) "npm" _ _) as [r|e]; cbn;
    [|reflexivity].
  destruct (stdout r =? ""); reflexivity.
Qed.

Lemma strict_eq_string_other (c : json) (s : string) :
  c <> JStr s -> strict_eq_string (Some c) s = false.
Proof.
  intros H. destruct c as [| | | s' | |]; cbn; trivial.
  destruct (String.eqb_spec s' s) as [->|]; [now destruct H|reflexivity].
Qed.

(** C6. An info query whose spawn gives an empty standard output
    returns [{error: {code: "E404"}}]. For every value [getPackageInfo]
    returns, [infoAllow404] returns [{published: false, pkgInfo: {}}]
    when the error code is "E404", throws [ExitError(1)] when another
    error code is present, and returns [{published: true, pkgInfo}] for
    an object without an error field. *)
Theorem info_query_404 :
  forall (env : Env) (packageJson : PackageJSON) (w : World),
    (forall r,
       spawn_outcome env (S (clock w)) "npm" (info_args env packageJson)
         plain_options = Resolved r ->
       stdout r = "" ->
       fst (getPackageInfo env packageJson w) = Returned not_found)
    /\ forall (j : json) (w1 : World),
         getPackageInfo env packageJson w = (Returned j, w1) ->
         (error_code j = Some (JStr "E404") ->
          infoAllow404 env packageJson w
          = (Returned {| info_published := false; pkgInfo := JObj [] |},
             and_then w1 [warning_404 packageJson]))
         /\ (forall c,
               error_code j = Some c -> c <> JStr "E404" ->
               fst (infoAllow404 env packageJson w) = Thrown (ExitError 1))
         /\ (forall fields,
               j = JObj fields -> lookup "error" fields = None ->
               infoAllow404 env packageJson w
               = (Returned {| info_published := true; pkgInfo := j |}, w1)).
Proof.
  intros env packageJson w. split.
  - intros r Hr Hempty. rewrite getPackageInfo_run. cbn zeta.
    rewrite Hr, Hempty. reflexivity.
  - intros j w1 Hinfo.
    assert (Hrun :
      infoAllow404 env packageJson w
      = (error <- or_type_error (get (Some j) "error") ;;
         if strict_eq_string (field_opt error "code") "E404" then
           emit (warning_404 packageJson) ;;
           ret {| info_published := false; pkgInfo := JObj [] |}
         else if truthy error then
           log Error [Text "Received an unknown error code: ";
                      Val (field error "code");
                      Text " for npm info ";
                      Text double_quote; Text (name packageJson); Text double_quote] ;;
           log Error [Val (field error "summary")] ;;
           (if truthy (field error "detail")
            then log Error [Val (field error "detail")]
            else ret tt) ;;
           throw (ExitError 1)
         else ret {| info_published := true; pkgInfo := j |}) w1).
    { unfold infoAllow404. unfold bind at 1. now rewrite Hinfo. }
    rewrite Hrun. clear Hrun Hinfo. repeat split.
    + intros Hcode.
      destruct (error_code_inv _ _ Hcode) as (fields & efields & -> & He & Hc).
      unfold get, bind. cbn. rewrite He. cbn. rewrite Hc. reflexivity.
    + intros c Hcode Hother.
      destruct (error_code_inv _ _ Hcode) as (fields & efields & -> & He & Hc).
      unfold get, bind at 1. cbn. rewrite He. cbn. rewrite Hc.
      rewrite (strict_eq_string_other _ _ Hother).
      unfold bind, log, emit. cbn.
      destruct (truthy (lookup "detail" efields)); reflexivity.
    + intros fields -> He. unfold get, bind. cbn. rewrite He. reflexivity.
Qed.

Lemma info_query_404_witness :
  fst (getPackageInfo (surroundings false None (registry_saying ""))
         sample_package fresh_world)
  = Returned not_found
  /\ infoAllow404 (surroundings false None (registry_saying ""))
       sample_package fresh_world
     = (Returned {| info_published := false; pkgInfo := JObj [] |},
        and_then
          (snd (getPackageInfo (surroundings false None (registry_saying ""))
                  sample_package fresh_world))
          [warning_404 sample_package]).
Proof.
  split.
  - apply (proj1 (info_query_404
                    (surroundings false None (registry_saying ""))
                    sample_package fresh_world)
             {| code := 0; stdout := ""; stderr := "" |});
      vm_compute; reflexivity.
  - apply (proj1 (proj2 (info_query_404
                           (surroundings false None (registry_saying ""))
                           sample_package fresh_world)
                    not_found
                    (snd (getPackageInfo
                            (surroundings false None (registry_saying ""))
                            sample_package fresh_world))
                    ltac:(vm_compute; reflexivity)));
      vm_compute; reflexivity.
Defined.

(** ** The one-time password *)

Lemma askForOtpCode_run (env : Env) (w : World) :
  askForOtpCode env w
  = let w1 := admitted env otpAskLimit w in
    match token (twoFactorState w1) with
    | Some t => (Returned t, and_then w1 [Leave otpAskLimit])
    | None =>
        let val := operator_input env (clock w1) otp_question in
        (Returned val,
         {| twoFactorState :=
              {| token := Some val;
                 isRequired := isRequired (twoFactorState w1) |};
            clock := S (clock w1);
            trace := trace w1
                     ++ [otp_notice; Ask otp_question; Leave otpAskLimit] |})
    end.
Proof.
  unfold askForOtpCode. rewrite limit_run. cbn zeta.
  generalize (admitted env otpAskLimit w) as w1. intros w1.
  match goal with |- context [fst (?b w1)] => set (body := b) end.
  assert (Hbody :
    body w1
    = match token (twoFactorState w1) with
      | Some t => (Returned t, w1)
      | None =>
          (Returned (operator_input env (clock w1) otp_question),
           {| twoFactorState :=
                {| token := Some (operator_input env (clock w1) otp_question);
                   isRequired := isRequired (twoFactorState w1) |};
              clock := S (clock w1);
              trace := trace w1 ++ [otp_notice; Ask otp_question] |})
      end).
  { subst body. unfold bind at 1, read.
    destruct (token (twoFactorState w1)); [reflexivity|].
    unfold bind, log, emit, askQuestion, tick, set_token, read, write, ret,
      otp_notice, otp_question.
    cbn. rewrite <- !app_assoc. reflexivity. }
  rewrite Hbody.
  destruct (token (twoFactorState w1)); [reflexivity|].
  unfold and_then. cbn. rewrite <- !app_assoc. reflexivity.
Qed.

(** C8. [getOtpCode] returns the token at once, without touching the
    prompt gate, when there is one. Otherwise it passes the prompt gate
    and looks at the token again: if another caller has set it
    meanwhile, that token is returned and nobody is asked; if not, the
    operator is told, asked once, and the answer is stored in
    [state.token] and returned. In every case the call returns, and the
    token is then the returned value. *)
Theorem getOtpCode_contract :
  forall (env : Env) (w : World),
    match token (twoFactorState w) with
    | Some t => getOtpCode env w = (Returned t, w)
    | None =>
        let w1 := admitted env otpAskLimit w in
        match token (twoFactorState w1) with
        | Some t =>
            getOtpCode env w = (Returned t, and_then w1 [Leave otpAskLimit])
        | None =>
            let val := operator_input env (clock w1) otp_question in
            getOtpCode env w
            = (Returned val,
               {| twoFactorState :=
                    {| token := Some val;
                       isRequired := isRequired (twoFactorState w1) |};
                  clock := S (clock w1);
                  trace := trace w1
                           ++ [otp_notice; Ask otp_question;
                               Leave otpAskLimit] |})
        end
    end
    /\ exists (val : string) (w' : World),
         getOtpCode env w = (Returned val, w')
         /\ token (twoFactorState w') = Some val.
Proof.
  intros env w.
  assert (Hget :
    getOtpCode env w
    = match token (twoFactorState w) with
      | Some t => (Returned t, w)
      | None => askForOtpCode env w
      end).
  { unfold getOtpCode, bind, read.
    destruct (token (twoFactorState w)); reflexivity. }
  rewrite Hget. clear Hget.
  destruct (token (twoFactorState w)) as [t|] eqn:Et.
  - split; [reflexivity|]. now exists t, w.
  - rewrite askForOtpCode_run. cbn zeta.
    destruct (token (twoFactorState (admitted env otpAskLimit w)))
      as [t|] eqn:Et1.
    + split; [reflexivity|]. eexists _, _. split; [reflexivity|]. exact Et1.
    + split; [reflexivity|]. eexists _, _. split; reflexivity.
Qed.

Lemma getOtpCode_contract_witness :
  getOtpCode (surroundings false None registry_with_2fa) fresh_world
  = (Returned "123456",
     {| twoFactorState :=
          {| token := Some "123456"; isRequired := Resolved false |};
        clock := 2;
        trace := [Enter otpAskLimit; otp_notice; Ask otp_question;
                  Leave otpAskLimit] |}).
Proof.
  exact (proj1 (getOtpCode_contract
                  (surroundings false None registry_with_2fa) fresh_world)).
Defined.

(** ** The profile query *)

Lemma getTokenIsRequired_run (env : Env) (w : World) :
  getTokenIsRequired env w
  = let w1 := {| twoFactorState := twoFactorState w;
                 clock := S (clock w);
                 trace := trace w
                          ++ [Spawn "npm" profile_args (profile_options env)] |} in
    match spawn_outcome env (clock w) "npm" profile_args (profile_options env)
    with
    | Rejected e => (Thrown e, w1)
    | Resolved r =>
        match JSON_parse (stdout r) with
        | None =>
            (Thrown (SyntaxError (stdout r)),
             and_then w1
               [Log ConsoleError
                  [Text "error parsing json:"; Text (stdout r)]])
        | Some JNull => (Thrown TypeError, w1)
        | Some j => (Returned (requires_token j), w1)
        end
    end.
Proof.
  unfold getTokenIsRequired. cbn zeta. unfold bind at 1.
  rewrite spawn_run. fold profile_args. fold (profile_options env).
  destruct (spawn_outcome env (clock w) "npm" _ _) as [r|e]; [|reflexivity].
  unfold bind at 1, jsonParse.
  destruct (JSON_parse (stdout r)) as [j|]; [|reflexivity].
  unfold requires_token, has_error, tfa_mode, get, bind.
  destruct j as [| | | | |fields]; try reflexivity.
  cbn.
  destruct (truthy (lookup "error" fields)); [reflexivity|]. cbn.
  destruct (lookup "tfa" fields) as [[|[]|n|s| |tfa]|]; try reflexivity.
  - cbn. destruct (number_is_zero n); reflexivity.
  - cbn. destruct (s =? ""); reflexivity.
  - cbn.
    destruct (lookup "mode" tfa) as [[|[]|n|s| |]|]; try reflexivity.
    + cbn. destruct (number_is_zero n); reflexivity.
    + cbn. destruct (String.eqb_spec s "") as [->|]; reflexivity.
Qed.

(** [requires_token], read off an object. *)
Lemma requires_token_iff (fields : list (string * json)) :
  requires_token (JObj fields) = true
  <-> truthy (lookup "error" fields) = false
      /\ exists tfa,
           lookup "tfa" fields = Some (JObj tfa)
           /\ lookup "mode" tfa = Some (JStr "auth-and-writes").
Proof.
  unfold requires_token, has_error, tfa_mode. cbn. split.
  - intros H. apply andb_true_iff in H. destruct H as [He Hm].
    apply negb_true_iff in He. split; trivial.
    destruct (lookup "tfa" fields) as [[| | | | |tfa]|]; try discriminate.
    exists tfa. split; trivial. now apply strict_eq_string_inv.
  - intros (He & tfa & -> & ->). now rewrite He.
Qed.

(** C10. [getTokenIsRequired] spawns [npm profile get --json] with
    [npm_config_registry] overridden by the resolved registry. When the
    output is not JSON it throws the [SyntaxError]; otherwise it returns
    [true] exactly when the profile has no error and has a [tfa] object
    whose [mode] is "auth-and-writes", and [false] for a profile with an
    error, without [tfa], or with any other mode ([null], the one JSON
    value that has no properties, makes it throw). *)
Theorem getTokenIsRequired_contract :
  forall (env : Env) (w : World),
    (exists events,
       trace (snd (getTokenIsRequired env w))
       = trace w
         ++ Spawn "npm" ["profile"; "get"; "--json"]
              {| spawn_cwd := None;
                 spawn_registry := Some (getCorrectRegistry env None) |}
            :: events)
    /\ forall r,
         spawn_outcome env (clock w) "npm" profile_args (profile_options env)
           = Resolved r ->
         fst (getTokenIsRequired env w)
         = match JSON_parse (stdout r) with
           | None => Thrown (SyntaxError (stdout r))
           | Some JNull => Thrown TypeError
           | Some j => Returned (requires_token j)
           end.
Proof.
  intros env w. rewrite getTokenIsRequired_run. cbn zeta. split.
  - fold profile_args. fold (profile_options env).
    destruct (spawn_outcome env (clock w) "npm" _ _) as [r|e];
      [|now exists []].
    destruct (JSON_parse (stdout r)) as [[| | | | |]|]; cbn;
      try (now exists []).
    rewrite <- app_assoc. now eexists.
  - intros r ->.
    destruct (JSON_parse (stdout r)) as [[| | | | |]|]; reflexivity.
Qed.

Lemma getTokenIsRequired_contract_witness :
  fst (getTokenIsRequired
         (surroundings false None (registry_saying profile_with_2fa))
         fresh_world)
  = Returned true.
Proof.
  apply (eq_trans
           (proj2 (getTokenIsRequired_contract
                     (surroundings false None
                        (registry_saying profile_with_2fa))
                     fresh_world)
              {| code := 0; stdout := profile_with_2fa; stderr := "" |}
              ltac:(vm_compute; reflexivity)));
    vm_compute; reflexivity.
Defined.

(** ** Gates around a publish *)

Lemma traces_limit {A} (env : Env) (P : event -> Prop) (g : gate) (fn : M A) :
  P (Enter g) -> P (Leave g) -> traces P fn -> traces P (limit env g fn).
Proof.
  intros He Hl Hfn w. rewrite limit_run. cbn [snd].
  destruct (Hfn (admitted env g w)) as (events & E & F).
  exists (Enter g :: events ++ [Leave g]). cbn. rewrite E. cbn.
  rewrite <- !app_assoc. split; [reflexivity|].
  constructor; trivial. apply Forall_app. split; trivial. now constructor.
Qed.

Section InsidePublish.

Variable env : Env.

Lemma traces_set_token (P : event -> Prop) v : traces P (set_token v).
Proof. unfold set_token. run_auto. Qed.

Lemma traces_set_isRequired (P : event -> Prop) p :
  traces P (set_isRequired p).
Proof. unfold set_isRequired. run_auto. Qed.

Lemma traces_askQuestion (P : event -> Prop) question :
  P (Ask question) -> traces P (askQuestion env question).
Proof. intros H. unfold askQuestion. run_auto. Qed.

Lemma inside_getOtpCode : traces inside_publish (getOtpCode env).
Proof.
  unfold getOtpCode. run_step; [run_auto|]. run_step; [run_auto|].
  unfold askForOtpCode. apply traces_limit; try reflexivity.
  run_step; [run_auto|]. run_step; [run_auto|].
  run_step; [run_auto; exact I|].
  run_step; [apply traces_askQuestion; exact I|].
  run_step; [apply traces_set_token|run_auto].
Qed.

Lemma inside_spawnPublish opts : traces inside_publish (spawnPublish env opts).
Proof.
  unfold spawnPublish.
  apply traces_bind; [apply traces_getPublishTool; now intros|intros tool].
  run_step; [run_auto|]. run_step; [run_auto|].
  apply traces_bind.
  { destruct (_ && _); [|run_auto].
    apply traces_bind; [apply inside_getOtpCode|intros; run_auto]. }
  intros args. run_step; [|run_auto]. now apply traces_spawn.
Qed.

Lemma inside_actOn again pkgName j :
  traces inside_publish again ->
  traces inside_publish (actOn env again pkgName j).
Proof.
  intros Hagain. unfold actOn.
  run_step; [run_auto|]. run_step; [run_auto|].
  run_step; [apply traces_otp_error_test|].
  destruct (_ && _).
  - run_step; [run_auto|].
    apply traces_bind.
    { destruct (token _); [apply traces_set_token|run_auto]. }
    intros _. apply traces_bind; [apply traces_set_isRequired|now intros].
  - run_step; [|run_auto]. now apply traces_emit.
Qed.

Lemma inside_internalPublish fuel pkgName opts :
  traces inside_publish (internalPublish env fuel pkgName opts).
Proof.
  induction fuel as [|fuel IH]; cbn [internalPublish];
    [apply traces_unfinished|].
  apply traces_bind; [apply inside_spawnPublish|intros stdout].
  unfold handleOutput.
  apply traces_bind; [apply traces_jsonParse; now intros|intros j].
  now apply inside_actOn.
Qed.

Lemma publish_trace fuel pkgName opts w :
  exists events,
    trace (snd (publish env fuel pkgName opts w))
    = trace w
      ++ [Enter npmRequestLimit; Enter npmPublishLimit]
      ++ events
      ++ [Leave npmPublishLimit; Leave npmRequestLimit]
    /\ Forall inside_publish events.
Proof.
  unfold publish. rewrite !limit_run. cbn [snd].
  destruct (inside_internalPublish fuel pkgName opts
              (admitted env npmPublishLimit (admitted env npmRequestLimit w)))
    as (events & E & F).
  exists events. split; trivial.
  unfold and_then. cbn [trace]. rewrite E. cbn.
  rewrite <- !app_assoc. reflexivity.
Qed.

End InsidePublish.

(** ** The gates among many callers *)

Section Limiter.

Import PLimit.
Local Open Scope nat_scope.

Lemma limiter_ok_pLimit n : limiter_ok (pLimit n).
Proof. split; cbn; lia. Qed.

Lemma concurrency_enqueue u l : concurrency (enqueue u l) = concurrency l.
Proof. unfold enqueue. now destruct (_ <? _). Qed.

Lemma concurrency_settle u l : concurrency (settle u l) = concurrency l.
Proof.
  unfold settle, next. destruct (existsb _ _); trivial. cbn.
  now destruct (queue l).
Qed.

Lemma limiter_ok_enqueue u l : limiter_ok l -> limiter_ok (enqueue u l).
Proof.
  intros [Hr Ha]. unfold enqueue.
  destruct (Nat.ltb_spec (activeCount l) (concurrency l)).
  - split; cbn; lia.
  - split; cbn; lia.
Qed.

Lemma length_remove_one u units :
  existsb (Nat.eqb u) units = true ->
  S (List.length (remove_one u units)) = List.length units.
Proof.
  induction units as [|v units IH]; cbn; [discriminate|].
  rewrite (Nat.eqb_sym u v).
  destruct (v =? u); cbn; [reflexivity|].
  intros H. now rewrite IH.
Qed.

Lemma limiter_ok_settle u l : limiter_ok l -> limiter_ok (settle u l).
Proof.
  intros [Hr Ha]. unfold settle.
  destruct (existsb (Nat.eqb u) (running l)) eqn:E; [|now split].
  pose proof (length_remove_one _ _ E) as Hlen.
  unfold next. cbn. destruct (queue l); split; cbn; lia.
Qed.

Lemma act_ok (s : gates) (a : action) :
  (forall g, limiter_ok (s g) /\ concurrency (s g) = concurrency (instance g)) ->
  forall g, limiter_ok (act s a g)
            /\ concurrency (act s a g) = concurrency (instance g).
Proof.
  intros H g. destruct (H g) as [Hok Hc]. unfold act.
  destruct a as [g' u|g' u]; destruct (gate_eqb g g'); try now split.
  - split; [now apply limiter_ok_enqueue|now rewrite concurrency_enqueue].
  - split; [now apply limiter_ok_settle|now rewrite concurrency_settle].
Qed.

Lemma fold_act_ok (schedule : list action) :
  forall s : gates,
    (forall g, limiter_ok (s g)
               /\ concurrency (s g) = concurrency (instance g)) ->
    forall g, limiter_ok (fold_left act schedule s g)
              /\ concurrency (fold_left act schedule s g)
                 = concurrency (instance g).
Proof.
  induction schedule as [|a schedule IH]; intros s H g; cbn [fold_left].
  - apply H.
  - apply IH. now apply act_ok.
Qed.

Lemma after_ok (schedule : list action) (g : gate) :
  limiter_ok (after schedule g)
  /\ concurrency (after schedule g) = concurrency (instance g).
Proof.
  unfold after. apply fold_act_ok.
  intros []; split; trivial; apply limiter_ok_pLimit.
Qed.

Lemma executing_bounded (schedule : list action) (g : gate) :
  executing schedule g <= concurrency (instance g).
Proof.
  unfold executing. destruct (after_ok schedule g) as [[Hr Ha] Hc]. lia.
Qed.

End Limiter.

Lemma no_gate_inside (g : gate) (events : list event) :
  g <> otpAskLimit ->
  Forall inside_publish events ->
  filter (enters g) events = [] /\ filter (leaves g) events = [].
Proof.
  intros Hg. induction 1 as [|e events He _ [IHe IHl]]; [now split|].
  cbn. rewrite IHe, IHl.
  destruct e as [| | | |g'|g']; cbn in *; try now split.
  - subst g'. destruct g; now split.
  - subst g'. destruct g; now split.
Qed.

Lemma holding_inside_publish (events before after : list event) (e : event) :
  Forall inside_publish events ->
  events = before ++ e :: after ->
  holding npmRequestLimit
    ([Enter npmRequestLimit; Enter npmPublishLimit] ++ before) = 1
  /\ holding npmPublishLimit
       ([Enter npmRequestLimit; Enter npmPublishLimit] ++ before) = 1.
Proof.
  intros F ->. apply Forall_app in F. destruct F as [F _].
  unfold holding. cbn [app filter enters leaves PLimit.gate_eqb].
  destruct (no_gate_inside npmRequestLimit before) as [-> ->];
    [discriminate|assumption|].
  destruct (no_gate_inside npmPublishLimit before) as [-> ->];
    [discriminate|assumption|].
  split; reflexivity.
Qed.

(** C9, as the code has it. Whatever the callers of the process hand to
    the three gates and in whatever order the started units settle, at
    most 40 units execute in the request gate (which admits the info
    queries), at most 10 in the publish gate, and at most 1 in the
    prompt gate. A call of [publish] passes the request gate first and
    the publish gate within it, and leaves them in the reverse order.
    All the attempts of [internalPublish], retries included, take place
    in between: none of their events passes either gate again, and each
    happens while the call holds its one slot in both gates. A retry is
    a direct call made inside the slots of the first admission; it is
    not outside the gates, and it never waits in a queue behind other
    publishes. *)
Theorem gates_capacities_and_nesting :
  (forall schedule : list PLimit.action,
     PLimit.executing schedule npmRequestLimit <= 40
     /\ PLimit.executing schedule npmPublishLimit <= 10
     /\ PLimit.executing schedule otpAskLimit <= 1)
  /\ forall (env : Env) (fuel : nat) (pkgName : string)
            (opts : PublishOptions) (w : World),
       exists events,
         trace (snd (publish env fuel pkgName opts w))
         = trace w
           ++ [Enter npmRequestLimit; Enter npmPublishLimit]
           ++ events
           ++ [Leave npmPublishLimit; Leave npmRequestLimit]
         /\ Forall inside_publish events
         /\ forall before e after,
              events = before ++ e :: after ->
              holding npmRequestLimit
                ([Enter npmRequestLimit; Enter npmPublishLimit] ++ before) = 1
              /\ holding npmPublishLimit
                   ([Enter npmRequestLimit; Enter npmPublishLimit] ++ before)
                 = 1.
Proof.
  split.
  - intros schedule. repeat split.
    + exact (executing_bounded schedule npmRequestLimit).
    + exact (executing_bounded schedule npmPublishLimit).
    + exact (executing_bounded schedule otpAskLimit).
  - intros env fuel pkgName opts w.
    destruct (publish_trace env fuel pkgName opts w) as (events & E & F).
    exists events. repeat split; trivial;
      now apply (holding_inside_publish events before after e).
Qed.

Lemma gates_capacities_and_nesting_witness :
  PLimit.executing
    (map (PLimit.Call npmPublishLimit) (seq 0 12)) npmPublishLimit <= 10
  /\ exists events,
       trace (snd (publish (surroundings false None registry_with_2fa) 2 "a"
                     sample_opts fresh_world))
       = [Enter npmRequestLimit; Enter npmPublishLimit]
         ++ events
         ++ [Leave npmPublishLimit; Leave npmRequestLimit]
       /\ Forall inside_publish events.
Proof.
  split.
  - exact (proj1 (proj2 (proj1 gates_capacities_and_nesting
                           (map (PLimit.Call npmPublishLimit) (seq 0 12))))).
  - destruct (proj2 gates_capacities_and_nesting
                (surroundings false None registry_with_2fa) 2 "a"
                sample_opts fresh_world) as (events & E & F & _).
    exists events. split; [exact E|exact F].
Defined.

(** C9 as stated, refuted. The specification has the retries run
    outside both gates. In the sample run the registry answers EOTP to
    the first attempt and the second attempt publishes with the
    operator's password: when that second publish is spawned, the call
    still holds its slot in the request gate and in the publish gate. *)
Lemma retry_runs_inside_the_gates :
  In retried_publish
    (trace (snd (publish (surroundings false None registry_with_2fa) 2 "a"
                   sample_opts fresh_world)))
  /\ ~ outside_gate npmRequestLimit
        (trace (snd (publish (surroundings false None registry_with_2fa) 2
                       "a" sample_opts fresh_world)))
        retried_publish
  /\ ~ outside_gate npmPublishLimit
        (trace (snd (publish (surroundings false None registry_with_2fa) 2
                       "a" sample_opts fresh_world)))
        retried_publish.
Proof.
  set (events := trace _).
  assert (E : events
              = firstn 9 events ++ retried_publish :: skipn 10 events)
    by (vm_compute; reflexivity).
  split; [rewrite E; apply in_elt|].
  split; intros H; specialize (H _ _ E); vm_compute in H; discriminate.
Qed.

(** ** A retried publish, from end to end *)

(** The registry answers EOTP to the first attempt and accepts the
    second: the operator is asked once, the publish succeeds, and the
    state records the password and that it is required. *)
Example publish_with_one_retry :
  publish (surroundings false None registry_with_2fa) 2 "a" sample_opts
    fresh_world
  = (Returned {| published := true |},
     {| twoFactorState :=
          {| token := Some "123456"; isRequired := Resolved true |};
        clock := 8;
        trace :=
          [Enter npmRequestLimit; Enter npmPublishLimit;
           PreferredPM "packages/a";
           Spawn "npm"
             ["publish"; "packages/a"; "--json"; "--access"; "public";
              "--tag"; "latest"]
             {| spawn_cwd := None;
                spawn_registry := Some "https://registry.npmjs.org" |};
           PreferredPM "packages/a";
           Enter otpAskLimit; otp_notice; Ask otp_question;
           Leave otpAskLimit;
           retried_publish;
           Leave npmPublishLimit; Leave npmRequestLimit] |}).
Proof. vm_compute. reflexivity. Qed.

(* ===================================================================== *)
(** * Further properties of the code *)
(* ===================================================================== *)

(** ** The registry *)

Lemma getCorrectRegistry_cases (env : Env) (packageJson : option PackageJSON) :
  getCorrectRegistry env packageJson = "https://registry.npmjs.org"
  \/ (getCorrectRegistry env packageJson <> ""
      /\ getCorrectRegistry env packageJson <> "https://registry.yarnpkg.com").
Proof.
  unfold getCorrectRegistry.
  set (registry := nullish _ _).
  destruct registry as [r|]; cbn; [|now left].
  destruct (String.eqb_spec r "") as [->|Hr]; cbn; [now left|].
  unfold yarnpkg_registry.
  destruct (String.eqb_spec r "https://registry.yarnpkg.com") as [->|Hy];
    [now left|now right].
Qed.

(** X4. Whatever the package and the environment say, the registry that
    [getCorrectRegistry] returns is never the empty string and never
    the yarnpkg mirror. *)
Theorem getCorrectRegistry_never_mirror :
  forall (env : Env) (packageJson : option PackageJSON),
    getCorrectRegistry env packageJson <> ""
    /\ getCorrectRegistry env packageJson <> "https://registry.yarnpkg.com".
Proof.
  intros env packageJson.
  destruct (getCorrectRegistry_cases env packageJson) as [->|H];
    [split; discriminate|exact H].
Qed.

(** X5. A registry that [getCorrectRegistry] has returned is kept as it
    is when it is written into a package: resolving again, in any
    environment, gives the same registry. *)
Theorem getCorrectRegistry_stable :
  forall (env env' : Env) (packageJson : option PackageJSON) (n : string),
    getCorrectRegistry env'
      (Some (with_registry n (Some (getCorrectRegistry env packageJson))))
    = getCorrectRegistry env packageJson.
Proof.
  intros env env' packageJson n.
  destruct (getCorrectRegistry_cases env packageJson) as [->|[He Hy]];
    [reflexivity|].
  unfold getCorrectRegistry at 1, with_registry. cbn.
  set (r := getCorrectRegistry env packageJson) in *.
  destruct (String.eqb_spec r "") as [E|_]; [now destruct He|]. cbn.
  unfold yarnpkg_registry.
  destruct (String.eqb_spec r "https://registry.yarnpkg.com") as [E|_];
    [now destruct Hy|reflexivity].
Qed.

(** ** Tool detection, with its events *)

Lemma getPublishTool_run (env : Env) (cwd : string) (w : World) :
  getPublishTool env cwd w
  = match preferred_pm env (clock w) cwd with
    | Rejected e => (Thrown e, later w 1 [PreferredPM cwd])
    | Resolved pm =>
        (Returned (tool_at env (S (clock w)) cwd pm), detected w cwd pm)
    end.
Proof.
  unfold getPublishTool, bind. rewrite preferredPM_run.
  destruct (preferred_pm env (clock w) cwd) as [pm|e]; [|reflexivity].
  unfold tool_at, detected, detected_tool, probe_events, version_probe,
    pm_is, major_at_least, later, probe_options.
  destruct pm as [p|]; [|reflexivity].
  destruct (pm_name p =? "pnpm").
  - unfold try_catch, bind. rewrite spawn_run. cbn [clock trace twoFactorState].
    destruct (spawn_outcome env (S (clock w)) "pnpm" _ _) as [r|e]; cbn;
      rewrite <- ?app_assoc; [|reflexivity].
    destruct (semver_parse env (trim (stdout r))); reflexivity.
  - destruct (pm_name p =? "yarn"); [|reflexivity].
    unfold try_catch, bind. rewrite spawn_run. cbn [clock trace twoFactorState].
    destruct (spawn_outcome env (S (clock w)) "yarn" _ _) as [r|e]; cbn;
      rewrite <- ?app_assoc; [|reflexivity].
    destruct (semver_parse env (trim (stdout r))); reflexivity.
Qed.

(** X6. [getPublishTool] asks [preferredPM] first. When that is
    rejected the rejection is the result, and nothing is spawned: only
    the failure of the version probe is caught. Otherwise it spawns at
    most one command, the [--version] probe of the preferred manager,
    in the directory of the package. It never touches the two-factor
    state. *)
Theorem getPublishTool_probes :
  forall (env : Env) (cwd : string) (w : World),
    twoFactorState (snd (getPublishTool env cwd w)) = twoFactorState w
    /\ (forall e,
          preferred_pm env (clock w) cwd = Rejected e ->
          getPublishTool env cwd w = (Thrown e, later w 1 [PreferredPM cwd]))
    /\ (forall pm,
          preferred_pm env (clock w) cwd = Resolved pm ->
          exists probe,
            trace (snd (getPublishTool env cwd w))
            = trace w ++ PreferredPM cwd :: probe
            /\ List.length probe <= 1
            /\ forall ev, In ev probe ->
                 exists tool,
                   pm_is pm tool = true
                   /\ ev = Spawn tool ["--version"] (probe_options cwd)).
Proof.
  intros env cwd w. rewrite getPublishTool_run. repeat split.
  - destruct (preferred_pm env (clock w) cwd); reflexivity.
  - intros e ->. reflexivity.
  - intros pm ->. exists (probe_events pm cwd). repeat split.
    + unfold probe_events.
      destruct (pm_is pm "pnpm"); [cbn; lia|].
      destruct (pm_is pm "yarn"); cbn; lia.
    + unfold probe_events. intros ev Hin.
      destruct (pm_is pm "pnpm") eqn:Hp.
      { destruct Hin as [<-|[]]. now exists "pnpm". }
      destruct (pm_is pm "yarn") eqn:Hy; [|destruct Hin].
      destruct Hin as [<-|[]]. now exists "yarn".
Qed.

Lemma getPublishTool_probes_witness :
  getPublishTool unreadable_project "packages/a" fresh_world
  = (Thrown (Failure "EACCES"),
     later fresh_world 1 [PreferredPM "packages/a"]).
Proof.
  exact (proj1 (proj2 (getPublishTool_probes unreadable_project "packages/a"
                         fresh_world))
           (Failure "EACCES") eq_refl).
Defined.

(** ** The command that is spawned *)

Lemma spawnPublish_run (env : Env) (opts : PublishOptions) (w : World)
    (pm : option PM) (required : bool) :
  preferred_pm env (clock w) (cwd opts) = Resolved pm ->
  isRequired (twoFactorState w) = Resolved required ->
  let tool := tool_at env (S (clock w)) (cwd opts) pm in
  let w1 := detected w (cwd opts) pm in
  spawnPublish env opts w
  = if required && negb (isCI env) then
      match getOtpCode env w1 with
      | (Returned code, w2) =>
          (output_of (spawn_outcome env (clock w2) (tool_name tool)
                        (publish_args tool opts (Some code))
                        (publish_options env)),
           later w2 1 [publish_spawn env tool opts (Some code)])
      | (Thrown e, w2) => (Thrown e, w2)
      | (Unfinished, w2) => (Unfinished, w2)
      end
    else
      (output_of (spawn_outcome env (clock w1) (tool_name tool)
                    (publish_args tool opts None) (publish_options env)),
       later w1 1 [publish_spawn env tool opts None]).
Proof.
  intros Hpm Hreq tool w1.
  unfold spawnPublish. unfold bind at 1. rewrite getPublishTool_run, Hpm.
  fold tool. fold w1.
  unfold bind at 1, read. cbn [fst snd].
  assert (Hs : twoFactorState w1 = twoFactorState w) by reflexivity.
  rewrite Hs, Hreq. unfold bind at 1, await, ret.
  destruct (required && negb (isCI env)).
  - unfold bind at 1 2.
    destruct (getOtpCode env w1) as [[code|e|] w2]; try reflexivity.
    unfold bind, ret. rewrite spawn_run.
    unfold publish_spawn, publish_args, publish_options, output_of, later.
    rewrite <- app_assoc.
    destruct (spawn_outcome env (clock w2) _ _ _); reflexivity.
  - unfold bind. rewrite spawn_run.
    unfold publish_spawn, publish_args, publish_options, output_of, later.
    cbn [app].
    destruct (spawn_outcome env (clock w1) _ _ _); reflexivity.
Qed.

Lemma getOtpCode_known (env : Env) (w : World) (t : string) :
  token (twoFactorState w) = Some t -> getOtpCode env w = (Returned t, w).
Proof. intros H. unfold getOtpCode, bind, read. now rewrite H. Qed.

Lemma getOtpCode_unknown (env : Env) (w : World) :
  token (twoFactorState w) = None -> getOtpCode env w = askForOtpCode env w.
Proof. intros H. unfold getOtpCode, bind, read. now rewrite H. Qed.

(** X7. Outside CI, when the one-time password is required and a token
    is known, the first thing [internalPublish] spawns after tool
    detection is the publish with [--otp] and that token (placed after
    the tag and before [--no-git-checks]); the operator is not asked,
    the prompt gate is not used, and the two-factor state is left as it
    was. *)
Theorem spawnPublish_passes_known_token :
  forall (env : Env) (opts : PublishOptions) (w : World) (pm : option PM)
         (t : string),
    isCI env = false ->
    preferred_pm env (clock w) (cwd opts) = Resolved pm ->
    isRequired (twoFactorState w) = Resolved true ->
    token (twoFactorState w) = Some t ->
    let tool := tool_at env (S (clock w)) (cwd opts) pm in
    let w1 := detected w (cwd opts) pm in
    spawnPublish env opts w
    = (output_of (spawn_outcome env (clock w1) (tool_name tool)
                    (publish_args tool opts (Some t)) (publish_options env)),
       later w1 1 [publish_spawn env tool opts (Some t)]).
Proof.
  intros env opts w pm t Hci Hpm Hreq Htok tool w1.
  rewrite (spawnPublish_run env opts w pm true Hpm Hreq), Hci. cbn [andb negb].
  fold tool. fold w1.
  now rewrite (getOtpCode_known env w1 t Htok).
Qed.

Lemma spawnPublish_passes_known_token_witness :
  snd (spawnPublish (surroundings false (Some "pnpm") registry_with_2fa)
         sample_opts
         (with_state {| token := Some "654321"; isRequired := Resolved true |}
            fresh_world))
  = {| twoFactorState :=
         {| token := Some "654321"; isRequired := Resolved true |};
       clock := 3;
       trace :=
         [PreferredPM "packages/a";
          Spawn "pnpm" ["--version"] (probe_options "packages/a");
          Spawn "pnpm"
            ["publish"; "packages/a"; "--json"; "--access"; "public";
             "--tag"; "latest"; "--otp"; "654321"; "--no-git-checks"]
            {| spawn_cwd := None;
               spawn_registry := Some "https://registry.npmjs.org" |}] |}.
Proof.
  apply (eq_trans
           (f_equal snd
              (spawnPublish_passes_known_token
                 (surroundings false (Some "pnpm") registry_with_2fa)
                 sample_opts
                 (with_state
                    {| token := Some "654321"; isRequired := Resolved true |}
                    fresh_world)
                 (Some {| pm_name := "pnpm"; pm_version := "" |})
                 "654321" eq_refl eq_refl eq_refl eq_refl)));
    vm_compute; reflexivity.
Defined.

(** X8. Outside CI, when the one-time password is required, no token is
    known, and no other caller supplies one while this one waits at the
    prompt gate, [internalPublish] asks the operator exactly once
    before it publishes, stores the answer in [token], and spawns the
    publish with [--otp] and that answer. *)
Theorem spawnPublish_asks_then_passes :
  forall (env : Env) (opts : PublishOptions) (w : World) (pm : option PM),
    isCI env = false ->
    preferred_pm env (clock w) (cwd opts) = Resolved pm ->
    isRequired (twoFactorState w) = Resolved true ->
    token (twoFactorState w) = None ->
    let tool := tool_at env (S (clock w)) (cwd opts) pm in
    let w1 := detected w (cwd opts) pm in
    let others := meanwhile env (clock w1) otpAskLimit (twoFactorState w) in
    token others = None ->
    let answer := operator_input env (S (clock w1)) otp_question in
    spawnPublish env opts w
    = (output_of (spawn_outcome env (2 + clock w1) (tool_name tool)
                    (publish_args tool opts (Some answer))
                    (publish_options env)),
       {| twoFactorState :=
            {| token := Some answer; isRequired := isRequired others |};
          clock := 3 + clock w1;
          trace := trace w1
                   ++ [Enter otpAskLimit; otp_notice; Ask otp_question;
                       Leave otpAskLimit;
                       publish_spawn env tool opts (Some answer)] |}).
Proof.
  intros env opts w pm Hci Hpm Hreq Htok tool w1 others Hothers answer.
  rewrite (spawnPublish_run env opts w pm true Hpm Hreq), Hci. cbn [andb negb].
  fold tool. fold w1.
  rewrite (getOtpCode_unknown env w1 Htok), askForOtpCode_run. cbn zeta.
  assert (Hs : twoFactorState (admitted env otpAskLimit w1) = others)
    by reflexivity.
  rewrite Hs, Hothers. unfold later. cbn [clock trace twoFactorState admitted].
  rewrite <- !app_assoc. reflexivity.
Qed.

Lemma spawnPublish_asks_then_passes_witness :
  snd (spawnPublish (surroundings false None registry_with_2fa) sample_opts
         world_requiring_otp)
  = {| twoFactorState :=
         {| token := Some "123456"; isRequired := Resolved true |};
       clock := 4;
       trace :=
         [PreferredPM "packages/a";
          Enter otpAskLimit; otp_notice; Ask otp_question; Leave otpAskLimit;
          retried_publish] |}.
Proof.
  apply (eq_trans
           (f_equal snd
              (spawnPublish_asks_then_passes
                 (surroundings false None registry_with_2fa) sample_opts
                 world_requiring_otp None
                 eq_refl eq_refl eq_refl eq_refl eq_refl)));
    vm_compute; reflexivity.
Defined.

(** X9. When the one-time password is known not to be required,
    in CI or not, the first attempt of [internalPublish] publishes
    without [--otp] and asks nothing, even if a token is known. *)
Theorem spawnPublish_without_otp :
  forall (env : Env) (opts : PublishOptions) (w : World) (pm : option PM),
    preferred_pm env (clock w) (cwd opts) = Resolved pm ->
    isRequired (twoFactorState w) = Resolved false ->
    let tool := tool_at env (S (clock w)) (cwd opts) pm in
    let w1 := detected w (cwd opts) pm in
    spawnPublish env opts w
    = (output_of (spawn_outcome env (clock w1) (tool_name tool)
                    (publish_args tool opts None) (publish_options env)),
       later w1 1 [publish_spawn env tool opts None]).
Proof.
  intros env opts w pm Hpm Hreq tool w1.
  now rewrite (spawnPublish_run env opts w pm false Hpm Hreq).
Qed.

Lemma spawnPublish_without_otp_witness :
  spawnPublish (surroundings false None registry_with_2fa) sample_opts
    (with_state {| token := Some "654321"; isRequired := Resolved false |}
       fresh_world)
  = (Returned eotp_output,
     {| twoFactorState :=
          {| token := Some "654321"; isRequired := Resolved false |};
        clock := 2;
        trace :=
          [PreferredPM "packages/a";
           Spawn "npm"
             ["publish"; "packages/a"; "--json"; "--access"; "public";
              "--tag"; "latest"]
             {| spawn_cwd := None;
                spawn_registry := Some "https://registry.npmjs.org" |}] |}).
Proof.
  apply (eq_trans
           (spawnPublish_without_otp
              (surroundings false None registry_with_2fa) sample_opts
              (with_state
                 {| token := Some "654321"; isRequired := Resolved false |}
                 fresh_world)
              None eq_refl eq_refl));
    vm_compute; reflexivity.
Defined.

(** ** Failures that end the call *)

Lemma getOtpCode_returns (env : Env) (w : World) :
  exists code w', getOtpCode env w = (Returned code, w').
Proof.
  destruct (token (twoFactorState w)) as [t|] eqn:Et.
  - exists t, w. now apply getOtpCode_known.
  - rewrite (getOtpCode_unknown env w Et), askForOtpCode_run. cbn zeta.
    destruct (token (twoFactorState (admitted env otpAskLimit w)));
      eexists _, _; reflexivity.
Qed.

(** X10. When the promise [isRequired] is rejected, [internalPublish]
    is rejected with the same error right after tool detection:
    no publish is spawned, nothing is asked, nothing is logged. *)
Theorem internalPublish_requirement_rejected :
  forall (env : Env) (fuel : nat) (pkgName : string) (opts : PublishOptions)
         (w : World) (pm : option PM) (e : exn),
    preferred_pm env (clock w) (cwd opts) = Resolved pm ->
    isRequired (twoFactorState w) = Rejected e ->
    internalPublish env (S fuel) pkgName opts w
    = (Thrown e, detected w (cwd opts) pm).
Proof.
  intros env fuel pkgName opts w pm e Hpm Hreq.
  cbn [internalPublish]. unfold bind at 1, spawnPublish.
  unfold bind at 1. rewrite getPublishTool_run, Hpm.
  unfold bind at 1, read. cbn [fst snd].
  assert (Hs : twoFactorState (detected w (cwd opts) pm) = twoFactorState w)
    by reflexivity.
  rewrite Hs, Hreq. reflexivity.
Qed.

Lemma internalPublish_requirement_rejected_witness :
  internalPublish (surroundings false None registry_with_2fa) 1 "a"
    sample_opts
    (with_state {| token := None; isRequired := Rejected (Failure "profile") |}
       fresh_world)
  = (Thrown (Failure "profile"),
     {| twoFactorState :=
          {| token := None; isRequired := Rejected (Failure "profile") |};
        clock := 1;
        trace := [PreferredPM "packages/a"] |}).
Proof.
  exact (internalPublish_requirement_rejected
           (surroundings false None registry_with_2fa) 0 "a" sample_opts
           (with_state
              {| token := None; isRequired := Rejected (Failure "profile") |}
              fresh_world)
           None (Failure "profile") eq_refl eq_refl).
Defined.

(** X11. A publish command that cannot be spawned is not swallowed the
    way a failed version probe is: when every spawn of the publish
    command is rejected with [e], [internalPublish] is rejected with
    [e], and the rejected spawn is the last event of the call: no
    output is parsed, no line is logged for it and nothing is retried.
    What comes before it is tool detection and, where a password is
    required outside CI, [getOtpCode]. *)
Theorem internalPublish_spawn_rejected :
  forall (env : Env) (fuel : nat) (pkgName : string) (opts : PublishOptions)
         (w : World) (pm : option PM) (required : bool) (e : exn),
    (forall now tool otp,
       spawn_outcome env now (tool_name tool) (publish_args tool opts otp)
         (publish_options env) = Rejected e) ->
    preferred_pm env (clock w) (cwd opts) = Resolved pm ->
    isRequired (twoFactorState w) = Resolved required ->
    exists (otp : option string) (w2 : World),
      internalPublish env (S fuel) pkgName opts w
      = (Thrown e,
         later w2 1
           [publish_spawn env (tool_at env (S (clock w)) (cwd opts) pm) opts
              otp])
      /\ (if required && negb (isCI env)
          then exists code,
                 otp = Some code
                 /\ getOtpCode env (detected w (cwd opts) pm)
                    = (Returned code, w2)
          else otp = None /\ w2 = detected w (cwd opts) pm).
Proof.
  intros env fuel pkgName opts w pm required e Hspawn Hpm Hreq.
  cbn [internalPublish]. unfold bind at 1.
  rewrite (spawnPublish_run env opts w pm required Hpm Hreq).
  destruct (required && negb (isCI env)).
  - destruct (getOtpCode_returns env (detected w (cwd opts) pm))
      as (code & w2 & Hcode).
    exists (Some code), w2. rewrite Hcode, Hspawn.
    split; [reflexivity|]. now exists code.
  - exists None, (detected w (cwd opts) pm). rewrite Hspawn.
    now repeat split.
Qed.

Lemma internalPublish_spawn_rejected_witness :
  exists (otp : option string) (w2 : World),
    internalPublish nothing_runs 3 "a" sample_opts world_requiring_otp
    = (Thrown (Failure "ENOENT"),
       later w2 1
         [publish_spawn nothing_runs
            (tool_at nothing_runs (S (clock world_requiring_otp))
               (cwd sample_opts) None)
            sample_opts otp])
    /\ (if true && negb (isCI nothing_runs)
        then exists code,
               otp = Some code
               /\ getOtpCode nothing_runs
                    (detected world_requiring_otp (cwd sample_opts) None)
                  = (Returned code, w2)
        else otp = None
             /\ w2 = detected world_requiring_otp (cwd sample_opts) None).
Proof.
  exact (internalPublish_spawn_rejected nothing_runs 2 "a" sample_opts
           world_requiring_otp None true (Failure "ENOENT")
           (fun _ _ _ => eq_refl) eq_refl eq_refl).
Defined.

(** ** How many attempts *)

Lemma otp_error_test_run (error : value) (w : World) :
  otp_error_test error w
  = (match otp_error error with
     | Some b => Returned b
     | None => Thrown TypeError
     end, w).
Proof.
  unfold otp_error_test, otp_error.
  destruct (strict_eq_string _ "EOTP"); [reflexivity|].
  destruct (strict_eq_string _ "E401"); [|reflexivity].
  destruct (call_includes _ _); reflexivity.
Qed.

Lemma actOn_run (env : Env) again pkgName j w :
  actOn env again pkgName j w
  = match get (Some j) "error" with
    | None => (Thrown TypeError, w)
    | Some error =>
        if negb (truthy error) then (Returned {| published := true |}, w)
        else match otp_error error with
             | None => (Thrown TypeError, w)
             | Some otp =>
                 if otp && negb (isCI env)
                 then again (with_state retry_state w)
                 else (Returned {| published := false |},
                       and_then w [failure_line pkgName j])
             end
    end.
Proof.
  unfold actOn. unfold bind at 1.
  destruct (get (Some j) "error") as [error|] eqn:Eg; [|reflexivity].
  cbn [or_type_error ret].
  destruct (negb (truthy error)); [reflexivity|].
  unfold bind at 1. rewrite otp_error_test_run.
  destruct (otp_error error) as [otp|]; [|reflexivity].
  destruct (otp && negb (isCI env)).
  - unfold bind, read, set_token, set_isRequired, write, ret, with_state,
      retry_state.
    cbn. destruct (token (twoFactorState w)) eqn:Et; cbn; rewrite ?Et;
      reflexivity.
  - unfold failure_line.
    assert (Hf : field (Some j) "error" = error).
    { unfold get in Eg. destruct (is_nullish (Some j)); [discriminate|].
      now injection Eg. }
    rewrite Hf. reflexivity.
Qed.

Lemma handleOutput_run (env : Env) again pkgName stdout w :
  handleOutput env again pkgName stdout w
  = match JSON_parse (replace_non_brace_prefix stdout) with
    | Some j => actOn env again pkgName j w
    | None =>
        (Thrown (SyntaxError (replace_non_brace_prefix stdout)),
         and_then w [Log ConsoleError
                       [Text "error parsing json:";
                        Text (replace_non_brace_prefix stdout)]])
    end.
Proof.
  destruct (JSON_parse (replace_non_brace_prefix stdout)) as [j|] eqn:E.
  - now apply handleOutput_parsed.
  - now apply handleOutput_unparsed.
Qed.

Lemma spawnPublish_finishes (env : Env) (opts : PublishOptions) (w : World) :
  fst (spawnPublish env opts w) <> Unfinished.
Proof.
  destruct (preferred_pm env (clock w) (cwd opts)) as [pm|e] eqn:Hpm.
  - destruct (isRequired (twoFactorState w)) as [required|e] eqn:Hreq.
    + rewrite (spawnPublish_run env opts w pm required Hpm Hreq).
      destruct (required && negb (isCI env)).
      * destruct (getOtpCode_returns env (detected w (cwd opts) pm))
          as (code & w2 & ->).
        cbn. destruct (spawn_outcome _ _ _ _ _); discriminate.
      * cbn. destruct (spawn_outcome _ _ _ _ _); discriminate.
    + unfold spawnPublish. unfold bind at 1.
      rewrite getPublishTool_run, Hpm.
      unfold bind at 1, read. cbn [fst snd].
      assert (Hs : twoFactorState (detected w (cwd opts) pm)
                   = twoFactorState w) by reflexivity.
      rewrite Hs, Hreq. discriminate.
  - unfold spawnPublish. unfold bind at 1.
    rewrite getPublishTool_run, Hpm. discriminate.
Qed.

(** X12. In CI [internalPublish] never takes the retry edge: whatever
    the tool prints, the call ends with its first attempt, so any bound
    on the attempts gives the result that a bound of one gives. *)
Theorem internalPublish_in_CI_one_attempt :
  forall (env : Env) (fuel : nat) (pkgName : string) (opts : PublishOptions)
         (w : World),
    isCI env = true ->
    internalPublish env (S fuel) pkgName opts w
    = internalPublish env 1 pkgName opts w
    /\ fst (internalPublish env 1 pkgName opts w) <> Unfinished.
Proof.
  intros env fuel pkgName opts w Hci.
  assert (Hstep : forall n,
    internalPublish env (S n) pkgName opts w
    = match spawnPublish env opts w with
      | (Returned stdout, w1) => handleOutput env unfinished pkgName stdout w1
      | (Thrown e, w1) => (Thrown e, w1)
      | (Unfinished, w1) => (Unfinished, w1)
      end).
  { intros n. cbn [internalPublish]. unfold bind at 1.
    destruct (spawnPublish env opts w) as [[stdout|e|] w1]; try reflexivity.
    rewrite !handleOutput_run.
    destruct (JSON_parse _) as [j|]; [|reflexivity].
    rewrite !actOn_run, Hci. cbn [negb].
    destruct (get (Some j) "error") as [error|]; [|reflexivity].
    destruct (negb (truthy error)); [reflexivity|].
    destruct (otp_error error) as [otp|]; [|reflexivity].
    now rewrite andb_false_r. }
  split; [now rewrite !Hstep|].
  rewrite Hstep. pose proof (spawnPublish_finishes env opts w) as Hs.
  destruct (spawnPublish env opts w) as [[stdout|e|] w1];
    [|discriminate|now destruct Hs].
  rewrite handleOutput_run.
  destruct (JSON_parse _) as [j|]; [|discriminate].
  rewrite actOn_run, Hci. cbn [negb].
  destruct (get (Some j) "error") as [error|]; [|discriminate].
  destruct (negb (truthy error)); [discriminate|].
  destruct (otp_error error) as [otp|]; [|discriminate].
  rewrite andb_false_r. discriminate.
Qed.

Lemma internalPublish_in_CI_one_attempt_witness :
  internalPublish (surroundings true None registry_with_2fa) 5 "a"
    sample_opts world_requiring_otp
  = internalPublish (surroundings true None registry_with_2fa) 1 "a"
      sample_opts world_requiring_otp.
Proof.
  exact (proj1 (internalPublish_in_CI_one_attempt
                  (surroundings true None registry_with_2fa) 4 "a"
                  sample_opts world_requiring_otp eq_refl)).
Defined.

Lemma internalPublish_step (env : Env) fuel pkgName opts w :
  internalPublish env (S fuel) pkgName opts w
  = match spawnPublish env opts w with
    | (Returned stdout, w1) =>
        handleOutput env (internalPublish env fuel pkgName opts) pkgName
          stdout w1
    | (Thrown e, w1) => (Thrown e, w1)
    | (Unfinished, w1) => (Unfinished, w1)
    end.
Proof.
  cbn [internalPublish]. unfold bind at 1.
  destruct (spawnPublish env opts w) as [[stdout|e|] w1]; reflexivity.
Qed.

Lemma extends_internalPublish (env : Env) pkgName opts more fuel :
  extends (internalPublish env fuel pkgName opts)
    (internalPublish env (fuel + more) pkgName opts).
Proof.
  induction fuel as [|fuel IH]; intros w r w' Hrun Hr.
  - cbn in Hrun. injection Hrun as <- _. now destruct Hr.
  - cbn [Nat.add]. rewrite internalPublish_step in *.
    destruct (spawnPublish env opts w) as [[stdout|e|] w1]; trivial.
    rewrite handleOutput_run in *.
    destruct (JSON_parse _) as [j|]; trivial.
    rewrite actOn_run in *.
    destruct (get (Some j) "error") as [error|]; trivial.
    destruct (negb (truthy error)); trivial.
    destruct (otp_error error) as [otp|]; trivial.
    destruct (otp && negb (isCI env)); trivial.
    now apply IH.
Qed.

Lemma extends_limit {A} (env : Env) (g : gate) (fn fn' : M A) :
  extends fn fn' -> extends (limit env g fn) (limit env g fn').
Proof.
  intros H w r w'. rewrite !limit_run.
  destruct (fn (admitted env g w)) as [r1 w1] eqn:E. cbn [fst snd].
  intros [= -> <-] Hr. now rewrite (H _ _ _ E Hr).
Qed.

(** The bound on the attempts, which the code does not have, does not
    decide how a publish ends in this model: a call of [publish] that
    returns or throws within [fuel] attempts returns or throws the
    same, in the same world, under any larger bound. *)
Theorem publish_more_attempts :
  forall (env : Env) (fuel more : nat) (pkgName : string)
         (opts : PublishOptions) (w w' : World) (r : outcome PublishResult),
    publish env fuel pkgName opts w = (r, w') ->
    r <> Unfinished ->
    publish env (fuel + more) pkgName opts w = (r, w').
Proof.
  intros env fuel more pkgName opts w w' r.
  apply (extends_limit env npmRequestLimit), (extends_limit env npmPublishLimit),
    extends_internalPublish.
Qed.

Lemma publish_more_attempts_witness :
  publish (surroundings false None registry_with_2fa) (2 + 7) "a" sample_opts
    fresh_world
  = (Returned {| published := true |},
     snd (publish (surroundings false None registry_with_2fa) 2 "a"
            sample_opts fresh_world)).
Proof.
  apply (publish_more_attempts
           (surroundings false None registry_with_2fa) 2 7 "a" sample_opts
           fresh_world
           (snd (publish (surroundings false None registry_with_2fa) 2 "a"
                   sample_opts fresh_world))
           (Returned {| published := true |}));
    [vm_compute; reflexivity|discriminate].
Defined.

(** ** What is known stays known *)

Section KeepsRequired.

Variable env : Env.
Hypothesis others : others_keep_required env.

Lemma getOtpCode_keeps_required (w : World) :
  required_known (twoFactorState w) ->
  required_known (twoFactorState (snd (getOtpCode env w))).
Proof.
  intros H. destruct (token (twoFactorState w)) as [t|] eqn:Et.
  - now rewrite (getOtpCode_known env w t Et).
  - rewrite (getOtpCode_unknown env w Et), askForOtpCode_run. cbn zeta.
    assert (Ha : required_known (twoFactorState (admitted env otpAskLimit w)))
      by now apply others.
    destruct (token (twoFactorState (admitted env otpAskLimit w)));
      exact Ha.
Qed.

Lemma spawnPublish_keeps_required (opts : PublishOptions) (w : World) :
  required_known (twoFactorState w) ->
  required_known (twoFactorState (snd (spawnPublish env opts w))).
Proof.
  intros H.
  destruct (preferred_pm env (clock w) (cwd opts)) as [pm|e] eqn:Hpm.
  - rewrite (spawnPublish_run env opts w pm true Hpm H).
    destruct (true && negb (isCI env)); [|exact H].
    pose proof (getOtpCode_keeps_required (detected w (cwd opts) pm) H) as Hk.
    destruct (getOtpCode env (detected w (cwd opts) pm)) as [[code|e|] w2];
      exact Hk.
  - unfold spawnPublish. unfold bind at 1.
    now rewrite getPublishTool_run, Hpm.
Qed.

Lemma internalPublish_keeps_required fuel pkgName opts :
  forall w,
    required_known (twoFactorState w) ->
    required_known
      (twoFactorState (snd (internalPublish env fuel pkgName opts w))).
Proof.
  induction fuel as [|fuel IH]; intros w H; [exact H|].
  rewrite internalPublish_step.
  pose proof (spawnPublish_keeps_required opts w H) as Hs.
  destruct (spawnPublish env opts w) as [[stdout|e|] w1]; trivial.
  cbn [snd] in Hs. rewrite handleOutput_run.
  destruct (JSON_parse _) as [j|]; trivial.
  rewrite actOn_run.
  destruct (get (Some j) "error") as [error|]; trivial.
  destruct (negb (truthy error)); trivial.
  destruct (otp_error error) as [otp|]; trivial.
  destruct (otp && negb (isCI env)); trivial.
  now apply IH.
Qed.

End KeepsRequired.

(** X14. Once the one-time password is known to be required it stays
    so: if [isRequired] is resolved to [true] when [publish] is called,
    and the other callers that share the state do not take that back,
    it is resolved to [true] when [publish] ends, however it ends. The
    code only ever assigns [Promise.resolve(true)] to it. *)
Theorem publish_keeps_required :
  forall (env : Env) (fuel : nat) (pkgName : string) (opts : PublishOptions)
         (w : World),
    others_keep_required env ->
    isRequired (twoFactorState w) = Resolved true ->
    isRequired (twoFactorState (snd (publish env fuel pkgName opts w)))
    = Resolved true.
Proof.
  intros env fuel pkgName opts w Hothers H.
  unfold publish. rewrite !limit_run. cbn [snd twoFactorState and_then].
  apply (internalPublish_keeps_required env Hothers).
  now apply Hothers, Hothers.
Qed.

Lemma publish_keeps_required_witness :
  isRequired
    (twoFactorState
       (snd (publish (surroundings false None registry_with_2fa) 3 "a"
               sample_opts world_requiring_otp)))
  = Resolved true.
Proof.
  exact (publish_keeps_required
           (surroundings false None registry_with_2fa) 3 "a" sample_opts
           world_requiring_otp (fun _ _ _ H => H) eq_refl).
Defined.

(** X15. After a retry the one-time password is known to be required,
    whatever was known before: outside CI, when the first attempt ends
    in an OTP error and the other callers do not take the knowledge
    back, [isRequired] is resolved to [true] when [internalPublish]
    ends. *)
Theorem internalPublish_learns_required :
  forall (env : Env) (fuel : nat) (pkgName : string) (opts : PublishOptions)
         (w w1 : World) (stdout : string) (j : json),
    others_keep_required env ->
    isCI env = false ->
    spawnPublish env opts w = (Returned stdout, w1) ->
    JSON_parse (replace_non_brace_prefix stdout) = Some j ->
    otp_related j = true ->
    isRequired
      (twoFactorState (snd (internalPublish env (S fuel) pkgName opts w)))
    = Resolved true.
Proof.
  intros env fuel pkgName opts w w1 stdout j Hothers Hci Hrun Hparse Hotp.
  rewrite internalPublish_step, Hrun, handleOutput_run, Hparse.
  destruct (otp_related_test _ Hotp) as (fields & efields & -> & He & Htest).
  rewrite actOn_run. unfold get. cbn. rewrite He. cbn.
  specialize (Htest w1). rewrite otp_error_test_run in Htest.
  destruct (otp_error (Some (JObj efields))) as [[|]|]; try discriminate.
  rewrite Hci. cbn.
  now apply (internalPublish_keeps_required env Hothers).
Qed.

Lemma internalPublish_learns_required_witness :
  isRequired
    (twoFactorState
       (snd (internalPublish (surroundings false None registry_with_2fa) 2
               "a" sample_opts fresh_world)))
  = Resolved true.
Proof.
  apply (internalPublish_learns_required
           (surroundings false None registry_with_2fa) 1 "a" sample_opts
           fresh_world
           (snd (spawnPublish (surroundings false None registry_with_2fa)
                   sample_opts fresh_world))
           eotp_output eotp_json (fun _ _ _ H => H));
    vm_compute; reflexivity.
Defined.

(** ** The info query, from end to end *)

Lemma getPackageInfo_outcome (env : Env) packageJson w :
  getPackageInfo env packageJson w
  = match spawn_outcome env (S (clock w)) "npm" (info_args env packageJson)
            plain_options with
    | Resolved r =>
        if stdout r =? "" then
          (Returned not_found,
           and_then (queried env packageJson w) [Leave npmRequestLimit])
        else
          match JSON_parse (stdout r) with
          | Some j =>
              (Returned j,
               and_then (queried env packageJson w) [Leave npmRequestLimit])
          | None =>
              (Thrown (SyntaxError (stdout r)),
               and_then (queried env packageJson w)
                 [Log ConsoleError
                    [Text "error parsing json:"; Text (stdout r)];
                  Leave npmRequestLimit])
          end
    | Rejected e =>
        (Thrown e,
         and_then (queried env packageJson w) [Leave npmRequestLimit])
    end.
Proof.
  rewrite getPackageInfo_run. cbn zeta.
  unfold queried, and_then, info_spawn, info_line, admitted.
  cbn [twoFactorState clock trace].
  destruct (spawn_outcome env (S (clock w)) "npm" _ _) as [r|e];
    rewrite <- ?app_assoc; [|reflexivity].
  destruct (stdout r =? ""); [reflexivity|].
  unfold jsonParse.
  destruct (JSON_parse (stdout r)); cbn; rewrite <- ?app_assoc; reflexivity.
Qed.

(** X16. A package whose info query prints nothing is reported as not
    published: when the spawn of [npm info] gives an empty standard
    output, [infoAllow404] returns [{published: false, pkgInfo: {}}]
    after a warning, and the request gate has been left. *)
Theorem infoAllow404_blank_output :
  forall (env : Env) (packageJson : PackageJSON) (w : World)
         (r : SpawnResult),
    spawn_outcome env (S (clock w)) "npm" (info_args env packageJson)
      plain_options = Resolved r ->
    stdout r = "" ->
    infoAllow404 env packageJson w
    = (Returned {| info_published := false; pkgInfo := JObj [] |},
       and_then (queried env packageJson w)
         [Leave npmRequestLimit; warning_404 packageJson]).
Proof.
  intros env packageJson w r Hr Hblank.
  unfold infoAllow404. unfold bind at 1.
  rewrite getPackageInfo_outcome, Hr, Hblank. cbn.
  unfold and_then. cbn. rewrite <- !app_assoc. reflexivity.
Qed.

Lemma infoAllow404_blank_output_witness :
  fst (infoAllow404 (surroundings false None (registry_saying ""))
         sample_package fresh_world)
  = Returned {| info_published := false; pkgInfo := JObj [] |}.
Proof.
  exact (f_equal fst
           (infoAllow404_blank_output
              (surroundings false None (registry_saying ""))
              sample_package fresh_world
              {| code := 0; stdout := ""; stderr := "" |}
              eq_refl eq_refl)).
Defined.

(** X17. A failed info query is not taken for "not published": when the
    spawn of [npm info] is rejected, [infoAllow404] is rejected with
    the same error; when it prints something that is not JSON,
    [infoAllow404] throws the [SyntaxError] after a line on the
    console. In both cases the request gate has been left, and no
    [ExitError] is raised. *)
Theorem infoAllow404_query_fails :
  forall (env : Env) (packageJson : PackageJSON) (w : World),
    (forall e,
       spawn_outcome env (S (clock w)) "npm" (info_args env packageJson)
         plain_options = Rejected e ->
       infoAllow404 env packageJson w
       = (Thrown e,
          and_then (queried env packageJson w) [Leave npmRequestLimit]))
    /\ (forall r,
          spawn_outcome env (S (clock w)) "npm" (info_args env packageJson)
            plain_options = Resolved r ->
          stdout r <> "" ->
          JSON_parse (stdout r) = None ->
          infoAllow404 env packageJson w
          = (Thrown (SyntaxError (stdout r)),
             and_then (queried env packageJson w)
               [Log ConsoleError
                  [Text "error parsing json:"; Text (stdout r)];
                Leave npmRequestLimit])).
Proof.
  intros env packageJson w. split.
  - intros e He. unfold infoAllow404. unfold bind at 1.
    now rewrite getPackageInfo_outcome, He.
  - intros r Hr Hne Hparse. unfold infoAllow404. unfold bind at 1.
    rewrite getPackageInfo_outcome, Hr, Hparse.
    destruct (String.eqb_spec (stdout r) ""); [contradiction|reflexivity].
Qed.

Lemma infoAllow404_query_fails_witness :
  fst (infoAllow404 nothing_runs sample_package fresh_world)
  = Thrown (Failure "ENOENT")
  /\ fst (infoAllow404 (surroundings false None (registry_saying html_output))
            sample_package fresh_world)
     = Thrown (SyntaxError html_output).
Proof.
  split.
  - exact (f_equal fst
             (proj1 (infoAllow404_query_fails nothing_runs sample_package
                       fresh_world)
                (Failure "ENOENT") eq_refl)).
  - apply (f_equal fst
             (proj2 (infoAllow404_query_fails
                       (surroundings false None (registry_saying html_output))
                       sample_package fresh_world)
                {| code := 0; stdout := html_output; stderr := "" |}
                eq_refl
                ltac:(discriminate)
                ltac:(vm_compute; reflexivity))).
Defined.

Lemma bind_returned {A B} (m : M A) (k : A -> M B) (w : World) (a : A)
    (w1 : World) :
  m w = (Returned a, w1) -> bind m k w = k a w1.
Proof. intros H. unfold bind. now rewrite H. Qed.

(** X18. What [infoAllow404] makes of an answer that is not of the
    expected shape. An [error] that holds a falsy value ([null],
    [false], [0], the empty string) is no error: the package is
    reported published. A truthy [error] whose [code] is absent or
    primitive and is not the string "E404" (an error without code, an
    error that is a text, a code that is a number) is fatal:
    [ExitError(1)]. The answer [null] makes the read of [error] throw a
    [TypeError]. *)
Theorem infoAllow404_odd_answers :
  forall (env : Env) (packageJson : PackageJSON) (w w1 : World) (j : json),
    getPackageInfo env packageJson w = (Returned j, w1) ->
    (j = JNull -> infoAllow404 env packageJson w = (Thrown TypeError, w1))
    /\ (forall fields e,
          j = JObj fields -> lookup "error" fields = Some e ->
          truthy_json e = false ->
          infoAllow404 env packageJson w
          = (Returned {| info_published := true; pkgInfo := j |}, w1))
    /\ (forall fields e,
          j = JObj fields -> lookup "error" fields = Some e ->
          truthy_json e = true ->
          primitive (field (Some e) "code") ->
          strict_eq_string (field (Some e) "code") "E404" = false ->
          fst (infoAllow404 env packageJson w) = Thrown (ExitError 1)).
Proof.
  intros env packageJson w w1 j Hinfo.
  unfold infoAllow404. rewrite !(bind_returned _ _ _ _ _ Hinfo).
  clear Hinfo. repeat split.
  - intros ->. reflexivity.
  - intros fields e -> He Hfalsy. unfold get, bind. cbn. rewrite He. cbn.
    rewrite Hfalsy.
    destruct e as [| | | | |efields]; try reflexivity. discriminate.
  - intros fields e -> He Htruthy _ Hcode. unfold get, bind at 1. cbn.
    rewrite He. cbn [or_type_error ret].
    assert (Hopt : field_opt (Some e) "code" = field (Some e) "code").
    { unfold field_opt. destruct e; reflexivity. }
    rewrite Hopt, Hcode. cbn [truthy]. rewrite Htruthy.
    unfold bind, log, emit. cbn.
    destruct (truthy _); reflexivity.
Qed.

Lemma infoAllow404_odd_answers_witness :
  infoAllow404 (surroundings false None (registry_saying "null"))
    sample_package fresh_world
  = (Thrown TypeError,
     snd (getPackageInfo (surroundings false None (registry_saying "null"))
            sample_package fresh_world))
  /\ fst (infoAllow404
            (surroundings false None (registry_saying server_error_output))
            sample_package fresh_world)
     = Thrown (ExitError 1).
Proof.
  split.
  - exact (proj1 (infoAllow404_odd_answers
                    (surroundings false None (registry_saying "null"))
                    sample_package fresh_world
                    (snd (getPackageInfo
                            (surroundings false None (registry_saying "null"))
                            sample_package fresh_world))
                    JNull
                    ltac:(vm_compute; reflexivity))
             eq_refl).
  - exact (proj2 (proj2 (infoAllow404_odd_answers
                    (surroundings false None
                       (registry_saying server_error_output))
                    sample_package fresh_world
                    (snd (getPackageInfo
                            (surroundings false None
                               (registry_saying server_error_output))
                            sample_package fresh_world))
                    (JObj server_error_fields)
                    ltac:(vm_compute; reflexivity)))
             server_error_fields
             (JObj [("code", JStr "E500");
                    ("summary", JStr "Internal Server Error")])
             eq_refl eq_refl eq_refl I eq_refl).
Defined.

(** ** No bound on the retries *)

Lemma publish_args_publish (tool : PublishTool) (opts : PublishOptions)
    (otp : option string) :
  among "publish" (publish_args tool opts otp) = true.
Proof.
  unfold publish_args, publishArgs_start, among. rewrite !existsb_app.
  destruct tool as [|[]|[]]; reflexivity.
Qed.

Lemma publishes_app (l l' : list event) :
  publishes (l ++ l') = publishes l + publishes l'.
Proof. unfold publishes. now rewrite filter_app, length_app. Qed.

Lemma publishes_probe (pm : option PM) (cwd : string) :
  publishes (PreferredPM cwd :: probe_events pm cwd) = 0.
Proof.
  unfold probe_events.
  destruct (pm_is pm "pnpm"); [reflexivity|].
  destruct (pm_is pm "yarn"); reflexivity.
Qed.

Lemma publishes_getOtpCode (env : Env) (w : World) :
  publishes (trace (snd (getOtpCode env w))) = publishes (trace w).
Proof.
  destruct (token (twoFactorState w)) as [t|] eqn:Et.
  - now rewrite (getOtpCode_known env w t Et).
  - rewrite (getOtpCode_unknown env w Et), askForOtpCode_run. cbn zeta.
    destruct (token (twoFactorState (admitted env otpAskLimit w)));
      unfold and_then, admitted; cbn [snd trace];
      rewrite !publishes_app; cbn; lia.
Qed.

Section Insisting.

Variable env : Env.
Hypothesis outside_CI : isCI env = false.
Hypothesis readable : reads_project env.
Hypothesis wants : always_wants_otp env.

Lemma spawnPublish_gets_otp_error (opts : PublishOptions) (w : World) :
  resolved (twoFactorState w) ->
  exists stdout w1 j,
    spawnPublish env opts w = (Returned stdout, w1)
    /\ JSON_parse (replace_non_brace_prefix stdout) = Some j
    /\ otp_related j = true
    /\ publishes (trace w1) = S (publishes (trace w)).
Proof.
  intros [required Hreq].
  destruct (readable (clock w) (cwd opts)) as [pm Hpm].
  rewrite (spawnPublish_run env opts w pm required Hpm Hreq), outside_CI.
  cbn [negb]. rewrite andb_true_r.
  assert (Hd : publishes (trace (detected w (cwd opts) pm))
               = publishes (trace w)).
  { unfold detected, later. cbn [trace].
    rewrite publishes_app, publishes_probe. lia. }
  destruct required.
  - pose proof (publishes_getOtpCode env (detected w (cwd opts) pm)) as Hg.
    destruct (getOtpCode_returns env (detected w (cwd opts) pm))
      as (code & w2 & Hcode).
    rewrite Hcode in *. cbn [snd] in Hg.
    destruct (wants (clock w2)
                (tool_name (tool_at env (S (clock w)) (cwd opts) pm))
                (publish_args (tool_at env (S (clock w)) (cwd opts) pm)
                   opts (Some code))
                (publish_options env) (publish_args_publish _ _ _))
      as (r & j & -> & Hparse & Hotp).
    cbn [output_of]. eexists (stdout r), _, j.
    split; [reflexivity|]. repeat split; trivial.
    unfold later. cbn [trace]. rewrite publishes_app.
    unfold publishes at 2. cbn [filter is_publish publish_spawn].
    rewrite publish_args_publish. cbn. lia.
  - revert Hd. generalize (detected w (cwd opts) pm) as w1. intros w1 Hd.
    destruct (wants (clock w1)
                (tool_name (tool_at env (S (clock w)) (cwd opts) pm))
                (publish_args (tool_at env (S (clock w)) (cwd opts) pm)
                   opts None)
                (publish_options env) (publish_args_publish _ _ _))
      as (r & j & -> & Hparse & Hotp).
    cbn [output_of]. eexists (stdout r), _, j.
    split; [reflexivity|]. repeat split; trivial.
    unfold later. cbn [trace]. rewrite publishes_app.
    unfold publishes at 2. cbn [filter is_publish publish_spawn].
    rewrite publish_args_publish. cbn. lia.
Qed.

Lemma internalPublish_retries (pkgName : string) (opts : PublishOptions)
    (fuel : nat) :
  forall w,
    resolved (twoFactorState w) ->
    fst (internalPublish env fuel pkgName opts w) = Unfinished
    /\ publishes (trace (snd (internalPublish env fuel pkgName opts w)))
       = publishes (trace w) + fuel.
Proof.
  induction fuel as [|fuel IH]; intros w H; [cbn; split; [reflexivity|lia]|].
  rewrite internalPublish_step.
  destruct (spawnPublish_gets_otp_error opts w H)
    as (stdout & w1 & j & -> & Hparse & Hotp & Hcount).
  rewrite handleOutput_run, Hparse.
  destruct (otp_related_test _ Hotp) as (fields & efields & -> & He & Htest).
  rewrite actOn_run. unfold get. cbn [is_nullish field]. rewrite He.
  cbn [truthy truthy_json negb].
  specialize (Htest w1). rewrite otp_error_test_run in Htest.
  destruct (otp_error (Some (JObj efields))) as [[|]|]; try discriminate.
  rewrite outside_CI. cbn [andb negb].
  destruct (IH (with_state retry_state w1)) as [Hend Hn].
  { now exists true. }
  split; [exact Hend|]. rewrite Hn. unfold with_state. cbn [trace]. lia.
Qed.

End Insisting.

(** X19. Outside CI the retries of [publish] have no bound: where every
    publish command is answered with an OTP error, no number of
    attempts ends the call, and each attempt spawns one more publish
    command. Nothing in the code counts the attempts or gives up. *)
Theorem publish_never_gives_up :
  forall (env : Env) (fuel : nat) (pkgName : string) (opts : PublishOptions)
         (w : World),
    isCI env = false ->
    reads_project env ->
    always_wants_otp env ->
    others_keep_resolved env ->
    resolved (twoFactorState w) ->
    fst (publish env fuel pkgName opts w) = Unfinished
    /\ publishes (trace (snd (publish env fuel pkgName opts w)))
       = publishes (trace w) + fuel.
Proof.
  intros env fuel pkgName opts w Hci Hread Hwants Hothers H.
  unfold publish. rewrite !limit_run. cbn [fst snd].
  destruct (internalPublish_retries env Hci Hread Hwants pkgName opts fuel
              (admitted env npmPublishLimit (admitted env npmRequestLimit w)))
    as [Hend Hn].
  { unfold admitted. cbn [twoFactorState]. now apply Hothers, Hothers. }
  split; [exact Hend|].
  unfold and_then. cbn [trace]. rewrite !publishes_app, Hn.
  unfold admitted. cbn [trace]. rewrite !publishes_app. cbn. lia.
Qed.

Lemma registry_insisting_wants_otp : always_wants_otp registry_insisting.
Proof.
  intros now tool args options H.
  exists {| code := 0; stdout := eotp_output; stderr := "" |}, eotp_json.
  cbn [spawn_outcome registry_insisting]. rewrite H.
  repeat split; vm_compute; reflexivity.
Qed.

Lemma publish_never_gives_up_witness :
  fst (publish registry_insisting 5 "a" sample_opts fresh_world) = Unfinished
  /\ publishes
       (trace (snd (publish registry_insisting 5 "a" sample_opts fresh_world)))
     = publishes (trace fresh_world) + 5.
Proof.
  exact (publish_never_gives_up registry_insisting 5 "a" sample_opts
           fresh_world eq_refl
           (fun _ _ => ex_intro _ None eq_refl)
           registry_insisting_wants_otp
           (fun _ _ _ H => H)
           (ex_intro _ false eq_refl)).
Defined.

(** ** Gates are left when a call ends *)

Lemma nested_Forall_quiet (events : list event) :
  Forall quiet events -> nested events.
Proof.
  induction 1 as [|e events He _ IH]; [constructor|].
  change (e :: events) with ([e] ++ events).
  apply nested_app; [now apply nested_quiet|exact IH].
Qed.

Lemma nested_balanced (events : list event) :
  nested events ->
  forall g,
    List.length (filter (enters g) events)
    = List.length (filter (leaves g) events).
Proof.
  induction 1 as [|e He|g' events _ IH|events events' _ IH _ IH']; intros g.
  - reflexivity.
  - destruct e; cbn; trivial; destruct He.
  - cbn [filter enters leaves]. rewrite !filter_app. cbn [filter enters leaves].
    destruct (PLimit.gate_eqb g g'); cbn [List.length];
      rewrite !length_app, IH; cbn; lia.
  - rewrite !filter_app, !length_app. now rewrite IH, IH'.
Qed.

Lemma brackets_returns_slots {A} (m : M A) (w : World) :
  brackets m -> returns_slots m w.
Proof.
  intros H. destruct (H w) as (events & E & N).
  exists events. repeat split; trivial. now apply nested_balanced.
Qed.

Section Brackets.

Context {A B : Type}.

Lemma brackets_quiet (m : M A) : traces quiet m -> brackets m.
Proof.
  intros H w. destruct (H w) as (events & E & F).
  exists events. split; trivial. now apply nested_Forall_quiet.
Qed.

Lemma brackets_bind (m : M A) (k : A -> M B) :
  brackets m -> (forall a, brackets (k a)) -> brackets (bind m k).
Proof.
  intros Hm Hk w. unfold bind.
  destruct (Hm w) as (ev1 & E1 & N1).
  destruct (m w) as [[a|e|] w1]; cbn in E1.
  - destruct (Hk a w1) as (ev2 & E2 & N2).
    exists (ev1 ++ ev2). rewrite E2, E1, app_assoc. split; trivial.
    now apply nested_app.
  - now exists ev1.
  - now exists ev1.
Qed.

Lemma brackets_limit (env : Env) (g : gate) (fn : M A) :
  brackets fn -> brackets (limit env g fn).
Proof.
  intros Hfn w. rewrite limit_run. cbn [snd].
  destruct (Hfn (admitted env g w)) as (events & E & N).
  exists (Enter g :: events ++ [Leave g]). cbn. rewrite E. cbn.
  rewrite <- !app_assoc. split; [reflexivity|]. now apply nested_gate.
Qed.

End Brackets.

Section BracketsOfCalls.

Variable env : Env.

Lemma quiet_getPublishTool cwd : traces quiet (getPublishTool env cwd).
Proof. apply traces_getPublishTool; now intros. Qed.

Lemma brackets_getOtpCode : brackets (getOtpCode env).
Proof.
  unfold getOtpCode.
  apply brackets_bind; [apply brackets_quiet; run_auto|intros s].
  destruct (token s); [apply brackets_quiet; run_auto|].
  unfold askForOtpCode. apply brackets_limit, brackets_quiet.
  run_step; [run_auto|]. run_step; [run_auto|].
  run_step; [run_auto; exact I|].
  run_step; [apply traces_askQuestion; exact I|].
  run_step; [apply traces_set_token|run_auto].
Qed.

Lemma brackets_spawnPublish opts : brackets (spawnPublish env opts).
Proof.
  unfold spawnPublish.
  apply brackets_bind;
    [apply brackets_quiet, quiet_getPublishTool|intros tool].
  apply brackets_bind; [apply brackets_quiet; run_auto|intros s].
  apply brackets_bind; [apply brackets_quiet; run_auto|intros required].
  apply brackets_bind.
  { destruct (_ && _); [|apply brackets_quiet; run_auto].
    apply brackets_bind; [apply brackets_getOtpCode|intros code].
    apply brackets_quiet; run_auto. }
  intros args. apply brackets_quiet.
  run_step; [|run_auto]. now apply traces_spawn.
Qed.

Lemma brackets_actOn again pkgName j :
  brackets again -> brackets (actOn env again pkgName j).
Proof.
  intros Hagain. unfold actOn.
  apply brackets_bind; [apply brackets_quiet; run_auto|intros error].
  destruct (negb (truthy error)); [apply brackets_quiet; run_auto|].
  apply brackets_bind;
    [apply brackets_quiet, traces_otp_error_test|intros otp].
  destruct (_ && _).
  - apply brackets_bind; [apply brackets_quiet; run_auto|intros s].
    apply brackets_bind.
    { apply brackets_quiet.
      destruct (token s); [apply traces_set_token|run_auto]. }
    intros _.
    apply brackets_bind;
      [apply brackets_quiet, traces_set_isRequired|now intros].
  - apply brackets_quiet. run_step; [|run_auto]. now apply traces_emit.
Qed.

Lemma brackets_internalPublish fuel pkgName opts :
  brackets (internalPublish env fuel pkgName opts).
Proof.
  induction fuel as [|fuel IH]; cbn [internalPublish].
  { apply brackets_quiet, traces_unfinished. }
  apply brackets_bind; [apply brackets_spawnPublish|intros stdout].
  unfold handleOutput.
  apply brackets_bind; [|intros j; now apply brackets_actOn].
  apply brackets_quiet, traces_jsonParse. now intros.
Qed.

Lemma brackets_getPackageInfo packageJson :
  brackets (getPackageInfo env packageJson).
Proof.
  unfold getPackageInfo. apply brackets_limit, brackets_quiet.
  run_step; [now apply traces_emit|].
  run_step; [now apply traces_spawn|].
  destruct (_ =? _)%string; [run_auto|].
  apply traces_jsonParse. now intros.
Qed.

Lemma brackets_infoAllow404 packageJson :
  brackets (infoAllow404 env packageJson).
Proof.
  unfold infoAllow404.
  apply brackets_bind; [apply brackets_getPackageInfo|intros pkgInfo].
  apply brackets_quiet.
  run_step; [run_auto|].
  destruct (strict_eq_string _ _).
  { run_step; [now apply traces_emit|run_auto]. }
  destruct (truthy _); [|run_auto].
  run_step; [now apply traces_emit|].
  run_step; [now apply traces_emit|].
  run_step; [|run_auto].
  destruct (truthy _); [now apply traces_emit|run_auto].
Qed.

End BracketsOfCalls.

Lemma getPackageInfo_ends (env : Env) packageJson w :
  ends (getPackageInfo env packageJson) w.
Proof.
  unfold ends. rewrite getPackageInfo_outcome.
  destruct (spawn_outcome env (S (clock w)) "npm" _ _) as [r|e];
    [|discriminate].
  destruct (stdout r =? "")%string; [discriminate|].
  destruct (JSON_parse (stdout r)); discriminate.
Qed.

Lemma infoAllow404_ends (env : Env) packageJson w :
  ends (infoAllow404 env packageJson) w.
Proof.
  pose proof (getPackageInfo_ends env packageJson w) as Hinfo.
  unfold ends, infoAllow404 in *. unfold bind at 1.
  destruct (getPackageInfo env packageJson w) as [[j|e|] w1];
    [|discriminate|now destruct Hinfo].
  unfold bind at 1.
  destruct (get (Some j) "error") as [error|]; [|discriminate].
  cbn [or_type_error ret].
  destruct (strict_eq_string _ _); [discriminate|].
  destruct (truthy error); [|discriminate].
  unfold bind, log, emit. cbn.
  destruct (truthy _); discriminate.
Qed.

(** X20. A call that ends keeps no slot of a gate. Whether it returns or
    throws, the events of a call of [publish] are nested: every gate
    the call enters it leaves again, the one entered last first, so
    each gate is left exactly as often as it is entered. The same holds
    of [getPackageInfo], [infoAllow404] and [getOtpCode], which always
    end. (A publish that is still retrying holds its two slots.) *)
Theorem calls_return_their_slots :
  forall (env : Env) (w : World),
    (forall fuel pkgName opts,
       ends (publish env fuel pkgName opts) w ->
       returns_slots (publish env fuel pkgName opts) w)
    /\ (forall packageJson,
          ends (getPackageInfo env packageJson) w
          /\ returns_slots (getPackageInfo env packageJson) w)
    /\ (forall packageJson,
          ends (infoAllow404 env packageJson) w
          /\ returns_slots (infoAllow404 env packageJson) w)
    /\ ends (getOtpCode env) w
    /\ returns_slots (getOtpCode env) w.
Proof.
  intros env w. split; [|split; [|split; [|split]]].
  - intros fuel pkgName opts _. apply brackets_returns_slots.
    unfold publish. apply brackets_limit, brackets_limit.
    apply brackets_internalPublish.
  - intros packageJson. split; [apply getPackageInfo_ends|].
    apply brackets_returns_slots, brackets_getPackageInfo.
  - intros packageJson. split; [apply infoAllow404_ends|].
    apply brackets_returns_slots, brackets_infoAllow404.
  - unfold ends. destruct (getOtpCode_returns env w) as (code & w' & ->).
    discriminate.
  - apply brackets_returns_slots, brackets_getOtpCode.
Qed.

Lemma calls_return_their_slots_witness :
  returns_slots
    (publish (surroundings false None registry_with_2fa) 2 "a" sample_opts)
    fresh_world.
Proof.
  apply (proj1 (calls_return_their_slots
                  (surroundings false None registry_with_2fa) fresh_world)
           2 "a" sample_opts).
  vm_compute. discriminate.
Defined.

(** ** Only objects get through *)

Lemma parse_members_object (fuel : nat) :
  forall s acc v r,
    JS.Parse.parse_members fuel s acc = Some (v, r) ->
    exists fields, v = JObj fields.
Proof.
  induction fuel as [|fuel IH]; intros s acc v r; [discriminate|].
  cbn [JS.Parse.parse_members].
  destruct (JS.Parse.skip_ws s) as [|q r0]; [discriminate|].
  destruct (q =? "034")%char; [|discriminate].
  destruct (JS.Parse.parse_string r0) as [[k r1]|]; [|discriminate].
  destruct (JS.Parse.skip_ws r1) as [|c r2]; [discriminate|].
  destruct (c =? ":")%char; [|discriminate].
  destruct (JS.Parse.parse_value fuel r2) as [[v' r3]|]; [|discriminate].
  destruct (JS.Parse.skip_ws r3) as [|c' r4]; [discriminate|].
  destruct (c' =? ",")%char; [apply IH|].
  destruct (c' =? "}")%char; [|discriminate].
  intros [= <- _]. now eexists.
Qed.

Lemma JSON_parse_brace (tail : string) (j : json) :
  JSON_parse (String "{" tail) = Some j -> exists fields, j = JObj fields.
Proof.
  unfold JSON_parse, JSON_parse_with.
  destruct (JS.Parse.parse_value _ _) as [[v rest]|] eqn:E; [|discriminate].
  destruct (JS.Parse.skip_ws rest); [|discriminate].
  intros [= <-]. revert E.
  generalize (2 * String.length (String "{" tail)). intros n.
  replace (n + 1) with (S n) by lia.
  cbn [JS.Parse.parse_value list_ascii_of_string].
  change (JS.Parse.skip_ws ("{"%char :: list_ascii_of_string tail))
    with ("{"%char :: list_ascii_of_string tail).
  cbn [Ascii.eqb Bool.eqb].
  destruct (JS.Parse.skip_ws (list_ascii_of_string tail)) as [|c' r'];
    [discriminate|].
  destruct (c' =? "}")%char.
  - intros [= <- _]. now eexists.
  - apply parse_members_object.
Qed.

Lemma output_is_object (stdout : string) (j : json) :
  JSON_parse (replace_non_brace_prefix stdout) = Some j ->
  exists fields, j = JObj fields.
Proof.
  destruct (replace_non_brace_prefix_splits stdout)
    as (noise & _ & _ & [E|[tail E]]); rewrite E.
  - discriminate.
  - apply JSON_parse_brace.
Qed.

(** X21. Where a [TypeError] of [internalPublish] comes from, for an
    output whose error code and detail are absent or primitive (so that
    the failure line can be written). What is parsed starts with a
    brace, so it is an object and the read of [json.error] cannot
    throw. When the handling of such an output throws a [TypeError],
    the output is an object with a truthy [error], and either its code
    is "E401" and its [detail] has no [includes] to call (line 221),
    or the error is the one of the retry. *)
Theorem handleOutput_type_error_origin :
  forall (env : Env) (again : M PublishResult) (pkgName stdout : string)
         (w w' : World),
    (forall j,
       JSON_parse (replace_non_brace_prefix stdout) = Some j ->
       primitive (error_code j) /\ primitive (error_detail j)) ->
    handleOutput env again pkgName stdout w = (Thrown TypeError, w') ->
    exists fields e,
      JSON_parse (replace_non_brace_prefix stdout) = Some (JObj fields)
      /\ lookup "error" fields = Some e
      /\ truthy_json e = true
      /\ ((strict_eq_string (field (Some e) "code") "E401" = true
           /\ call_includes (field (Some e) "detail") otp_flag_text = None
           /\ w' = w)
          \/ (isCI env = false
              /\ again (with_state retry_state w) = (Thrown TypeError, w'))).
Proof.
  intros env again pkgName stdout w w' _. rewrite handleOutput_run.
  destruct (JSON_parse (replace_non_brace_prefix stdout)) as [j|] eqn:Hparse;
    [|discriminate].
  destruct (output_is_object _ _ Hparse) as [fields ->].
  rewrite actOn_run. unfold get. cbn [is_nullish field].
  destruct (lookup "error" fields) as [e|] eqn:He; [|discriminate].
  cbn [truthy]. destruct (truthy_json e) eqn:Ht; [|discriminate].
  cbn [negb]. intros H. exists fields, e. repeat split; trivial.
  unfold otp_error in H.
  destruct (strict_eq_string (field (Some e) "code") "EOTP").
  - right. destruct (isCI env); [discriminate|]. now split.
  - destruct (strict_eq_string (field (Some e) "code") "E401") eqn:Hcode.
    + destruct (call_includes (field (Some e) "detail") otp_flag_text)
        as [otp|] eqn:Hcall.
      * right. destruct otp; [|discriminate].
        destruct (isCI env); [discriminate|]. now split.
      * left. injection H as Hw.
        repeat split; [exact Hcode|exact Hcall|now symmetry].
    + discriminate.
Qed.

Lemma handleOutput_type_error_origin_witness :
  exists fields e,
    JSON_parse (replace_non_brace_prefix unauthorized_output)
    = Some (JObj fields)
    /\ lookup "error" fields = Some e
    /\ truthy_json e = true
    /\ ((strict_eq_string (field (Some e) "code") "E401" = true
         /\ call_includes (field (Some e) "detail") otp_flag_text = None
         /\ fresh_world = fresh_world)
        \/ (isCI nothing_runs = false
            /\ ret {| published := true |} (with_state retry_state fresh_world)
               = (Thrown TypeError, fresh_world))).
Proof.
  apply (handleOutput_type_error_origin nothing_runs
           (ret {| published := true |}) "a" unauthorized_output
           fresh_world fresh_world).
  - intros j H. vm_compute in H. injection H as <-. now split.
  - vm_compute. reflexivity.
Defined.

(** ** Asking once *)

(** X3. A password that has been obtained is not asked for again:
    called on the state it has just left, [getOtpCode] returns the same
    password and changes nothing; it does not pass the prompt gate and
    the operator is not asked. *)
Theorem getOtpCode_again :
  forall (env : Env) (w : World),
    getOtpCode env (snd (getOtpCode env w))
    = (fst (getOtpCode env w), snd (getOtpCode env w)).
Proof.
  intros env w.
  destruct (token (twoFactorState w)) as [t|] eqn:Et.
  - rewrite (getOtpCode_known env w t Et). cbn [fst snd].
    now apply getOtpCode_known.
  - rewrite (getOtpCode_unknown env w Et), askForOtpCode_run. cbn zeta.
    destruct (token (twoFactorState (admitted env otpAskLimit w))) as [t|]
      eqn:Et1; cbn [fst snd]; now apply getOtpCode_known.
Qed.
